(** * country-vote: the client-side request / validation / refresh pipeline

    A shallow embedding of the TypeScript sources

      - [src/types.ts], [src/schemas/vote.schema.ts]
      - [src/api/service.ts] (fetch based), [src/api/API.config.ts] and the
        axios based service that goes through it
      - [src/components/VotingForm.tsx], [src/components/CountryTable.tsx]
      - [src/App.tsx]

    React components are modelled as state machines: the [useState] cells of a
    component form a record, an event handler is a state transformer, the
    pending [setTimeout]s sit in a timer table kept next to the state, and an [await]
    splits a handler into the part that runs before the request is issued and
    the continuation that runs when the promise settles. *)

From Stdlib Require Import ZArith NArith List Bool Lia String Ascii DecimalString.
Import ListNotations.

Set Implicit Arguments.

Open Scope N_scope.

(* ================================================================== *)
(** * JavaScript strings *)

(** A JavaScript string is a sequence of UTF-16 code units; [length],
    [trim] and regular expressions without the [u] flag all work on code
    units. *)
Module JsString.

Definition code_unit := N.
Definition jsstring := list code_unit.

(** String literals of the sources (all of them ASCII). *)
Definition js (s : string) : jsstring :=
  map N_of_ascii (list_ascii_of_string s).

(** ECMAScript WhiteSpace and LineTerminator code points: what
    [String.prototype.trim] strips and what [\s] matches. *)
Definition isWhiteSpace (c : code_unit) : bool :=
  ((9 <=? c) && (c <=? 13)) || (c =? 32) || (c =? 160) || (c =? 5760)
  || ((8192 <=? c) && (c <=? 8202)) || (c =? 8232) || (c =? 8233)
  || (c =? 8239) || (c =? 8287) || (c =? 12288) || (c =? 65279).

Fixpoint trimStart (s : jsstring) : jsstring :=
  match s with
  | c :: s' => if isWhiteSpace c then trimStart s' else s
  | [] => []
  end.

Definition trimEnd (s : jsstring) : jsstring := rev (trimStart (rev s)).

Definition trim (s : jsstring) : jsstring := trimEnd (trimStart s).

(** ToBoolean on a string: the empty string is the only falsy one. *)
Definition truthy (s : jsstring) : bool :=
  match s with [] => false | _ :: _ => true end.

(** [===] on strings. *)
Fixpoint eqb (a b : jsstring) : bool :=
  match a, b with
  | [], [] => true
  | x :: a', y :: b' => (x =? y) && eqb a' b'
  | _, _ => false
  end.

(** The empty string literal. *)
Definition blank : jsstring := [].

(** [s.length]. *)
Definition length (s : jsstring) : N := N.of_nat (List.length s).

(** [toLowerCase] on the ASCII letters; code units outside ASCII are left
    as they are (their Unicode case mapping is not modelled). *)
Definition lowerUnit (c : code_unit) : code_unit :=
  if (65 <=? c) && (c <=? 90) then c + 32 else c.

Definition toLowerCase (s : jsstring) : jsstring := map lowerUnit s.

(** [a || b] where [a] may be [undefined]: the first operand when it is
    truthy, the second otherwise. *)
Definition orElse (a : option jsstring) (b : jsstring) : jsstring :=
  match a with
  | Some s => if truthy s then s else b
  | None => b
  end.

(** UTF-16 surrogates.  A string is well formed when every high surrogate
    is followed by a low one and no low surrogate stands anywhere else;
    [encodeURIComponent] raises a [URIError] on any other string. *)
Definition isHighSurrogate (c : code_unit) : bool :=
  (55296 <=? c) && (c <=? 56319).

Definition isLowSurrogate (c : code_unit) : bool :=
  (56320 <=? c) && (c <=? 57343).

Fixpoint isWellFormed (s : jsstring) : bool :=
  match s with
  | [] => true
  | c :: rest =>
      if isHighSurrogate c
      then match rest with
           | d :: rest' => isLowSurrogate d && isWellFormed rest'
           | [] => false
           end
      else negb (isLowSurrogate c) && isWellFormed rest
  end.

(** The message V8 gives that [URIError]. *)
Definition uriMalformed : jsstring := js "URI malformed".

End JsString.
Export JsString.

(* ================================================================== *)
(** * Regular expressions *)

(** The fragment of regular expressions the sources use, matched with
    Brzozowski derivatives.  A pattern written [/^r$/] without flags accepts a
    string exactly when [r] matches the whole of it. *)
Module Regex.

Inductive regex : Type :=
| Never
| Empty
| Class (p : code_unit -> bool)
| Cat (r s : regex)
| Alt (r s : regex)
| Star (r : regex).

(** [r+] *)
Definition Plus (r : regex) : regex := Cat r (Star r).

Fixpoint nullable (r : regex) : bool :=
  match r with
  | Never => false
  | Empty => true
  | Class _ => false
  | Cat r s => nullable r && nullable s
  | Alt r s => nullable r || nullable s
  | Star _ => true
  end.

Fixpoint deriv (c : code_unit) (r : regex) : regex :=
  match r with
  | Never => Never
  | Empty => Never
  | Class p => if p c then Empty else Never
  | Cat r s =>
      if nullable r then Alt (Cat (deriv c r) s) (deriv c s)
      else Cat (deriv c r) s
  | Alt r s => Alt (deriv c r) (deriv c s)
  | Star r => Cat (deriv c r) (Star r)
  end.

Fixpoint test (r : regex) (s : jsstring) : bool :=
  match s with
  | [] => nullable r
  | c :: s' => test (deriv c r) s'
  end.

(** The declarative reading of a pattern. *)
Inductive Matches : regex -> jsstring -> Prop :=
| MEmpty : Matches Empty []
| MClass p c : p c = true -> Matches (Class p) [c]
| MCat r s u v : Matches r u -> Matches s v -> Matches (Cat r s) (u ++ v)
| MAltL r s u : Matches r u -> Matches (Alt r s) u
| MAltR r s u : Matches s u -> Matches (Alt r s) u
| MStarNil r : Matches (Star r) []
| MStarCons r u v :
    Matches r u -> Matches (Star r) v -> Matches (Star r) (u ++ v).

End Regex.

(* ================================================================== *)
(** * [src/types.ts] *)

Record Country : Type := { countryName : jsstring; code : jsstring }.

Record CountryVote : Type := {
  cv_country : jsstring;
  capital : jsstring;
  region : jsstring;
  subRegion : jsstring;
  votes : Z;
  rank : Z
}.

Record VoteSubmission : Type := {
  name : jsstring;
  email : jsstring;
  country : jsstring
}.

Record ApiResponse (T : Type) : Type := {
  data : T;
  message : option jsstring
}.

(** [Partial<VoteSubmission>]: an object holding some of the three keys. *)
Record PartialVoteSubmission : Type := {
  p_name : option jsstring;
  p_email : option jsstring;
  p_country : option jsstring
}.

Definition noErrors : PartialVoteSubmission :=
  {| p_name := None; p_email := None; p_country := None |}.

Definition hasKey (field : option jsstring) : nat :=
  match field with Some _ => 1%nat | None => 0%nat end.

(** [Object.keys(o).length] *)
Definition keyCount (o : PartialVoteSubmission) : nat :=
  (hasKey (p_name o) + hasKey (p_email o) + hasKey (p_country o))%nat.

(* ================================================================== *)
(** * The HTTP collaborator *)

(** A request as the server sees it: the path below [API_BASE_URL], the
    decoded query parameters and the JSON body. *)
Inductive Method : Type := GET | POST.

Record Request : Type := {
  method : Method;
  path : jsstring;
  query : list (jsstring * jsstring);
  payload : option VoteSubmission
}.

(** What the network answers to one request: nothing (no connectivity, a
    timeout; [raw] is the text the platform gives the error), or a response
    with a status and a body. *)
Inductive NetResult (B : Type) : Type :=
| NoResponse (raw : jsstring)
| Response (status : Z) (body : B).

Arguments NoResponse {B} raw.
Arguments Response {B} status body.

(** The body of a response to [POST /votes], read only when the status is
    not a success: a JSON object that may carry a [message], or text that
    does not parse as JSON. *)
Inductive PostBody : Type :=
| JsonObject (msg : option jsstring)
| NotJson (syntaxError : jsstring).

(** A value thrown or carried by a rejected promise: an [Error] instance
    with its [message], or any other value. *)
Inductive Thrown : Type :=
| ErrorObject (msg : jsstring)
| OtherValue.

Inductive Settled (A : Type) : Type :=
| Fulfilled (a : A)
| Rejected (e : Thrown).

Arguments Fulfilled {A} a.
Arguments Rejected {A} e.

(** An [async] service method: the request it sends and how its promise
    settles once the network has answered with a body of the declared shape
    (each service says below, in its [...On] functions, what it makes of any
    other arrival). *)
Record Call (B A : Type) : Type := {
  request : Request;
  settle : NetResult B -> Settled A
}.

(** A method that computes on its argument before it sends anything:
    [before] is what that computation throws, when it throws.  The promise of
    the method is then rejected with it and no request is sent; [call] is the
    method otherwise. *)
Record GuardedCall (B A : Type) : Type := {
  before : option Thrown;
  call :> Call B A
}.

(** [NetResult B] is an answer whose body, if there is one, is JSON of the
    shape [B] the method declares.  What reaches a service is wider: the body
    may be empty or not JSON at all ([syntaxError] is the message of the
    [SyntaxError] that parsing it raises), and the answer takes its time
    ([latency], in ms from the request). *)
Inductive Content (B : Type) : Type :=
| Shaped (answer : NetResult B)
| Garbled (status : Z) (syntaxError : jsstring).

Arguments Shaped {B} answer.
Arguments Garbled {B} status syntaxError.

Record Arrival (B : Type) : Type := {
  latency : N;
  content : Content B
}.

(** What a method makes of an arrival: its promise settles with a value of
    the declared type or an error, or is fulfilled with [undefined], which
    the declared type does not have. *)
Inductive Returned (A : Type) : Type :=
| Settles (outcome : Settled A)
| FulfilsUndefined.

Arguments Settles {A} outcome.
Arguments FulfilsUndefined {A}.

(** The shape of the exported [api] object, which both service modules
    implement. *)
Module Api.

Class Service : Type := {
  getCountries : Call (ApiResponse (list Country)) (list Country);
  getTopCountries : Call (ApiResponse (list CountryVote)) (list CountryVote);
  submitVote : VoteSubmission -> Call PostBody unit;
  searchCountries :
    jsstring -> GuardedCall (ApiResponse (list CountryVote)) (list CountryVote)
}.

End Api.

(* ------------------------------------------------------------------ *)
(** ** [src/api/service.ts]: the service written over [fetch] *)

Module FetchService.

(** [response.ok] of the Fetch standard. *)
Definition ok (status : Z) : bool := ((200 <=? status) && (status <=? 299))%Z.

Definition getCountries : Call (ApiResponse (list Country)) (list Country) :=
  {| request := {| method := GET; path := js "/countries";
                   query := []; payload := None |};
     settle := fun response =>
       match response with
       | NoResponse raw => Rejected (ErrorObject raw)
       | Response status body =>
           if negb (ok status)
           then Rejected (ErrorObject (js "Failed to fetch countries"))
           else Fulfilled (data body)
       end |}.

Definition getTopCountries
  : Call (ApiResponse (list CountryVote)) (list CountryVote) :=
  {| request := {| method := GET; path := js "/votes/top";
                   query := []; payload := None |};
     settle := fun response =>
       match response with
       | NoResponse raw => Rejected (ErrorObject raw)
       | Response status body =>
           if negb (ok status)
           then Rejected (ErrorObject (js "Failed to fetch top countries"))
           else Fulfilled (data body)
       end |}.

Definition submitVote (vote : VoteSubmission) : Call PostBody unit :=
  {| request := {| method := POST; path := js "/votes";
                   query := []; payload := Some vote |};
     settle := fun response =>
       match response with
       | NoResponse raw => Rejected (ErrorObject raw)
       | Response status body =>
           if negb (ok status)
           then match body with
                | NotJson syntaxError => Rejected (ErrorObject syntaxError)
                | JsonObject msg =>
                    Rejected
                      (ErrorObject (orElse msg (js "Failed to submit vote")))
                end
           else Fulfilled tt
       end |}.

(** [encodeURIComponent(query)] is evaluated while the URL is built, before
    [fetch] is called. *)
Definition searchCountries (q : jsstring)
  : GuardedCall (ApiResponse (list CountryVote)) (list CountryVote) :=
  {| before :=
       if isWellFormed q then None else Some (ErrorObject uriMalformed);
     call :=
       {| request := {| method := GET; path := js "/votes/search";
                        query := [(js "q", q)]; payload := None |};
          settle := fun response =>
            match response with
            | NoResponse raw => Rejected (ErrorObject raw)
            | Response status body =>
                if negb (ok status)
                then Rejected (ErrorObject (js "Failed to search countries"))
                else Fulfilled (data body)
            end |} |}.

Definition api : Api.Service :=
  Api.Build_Service getCountries getTopCountries submitVote searchCountries.

(** The methods on any arrival.  [fetch] has no timeout, so the latency
    plays no part.  The three [GET] methods test [response.ok] first and then
    [await response.json()], which rejects with the [SyntaxError] when the
    body is empty or not JSON; [failed] is the text of the method's own
    error. *)
Definition getOn (B A : Type) (method : Call B A) (failed : jsstring)
    (arrival : Arrival B) : Returned A :=
  match content arrival with
  | Shaped answer => Settles (settle method answer)
  | Garbled status syntaxError =>
      if negb (ok status)
      then Settles (Rejected (ErrorObject failed))
      else Settles (Rejected (ErrorObject syntaxError))
  end.

Definition getCountriesOn
  : Arrival (ApiResponse (list Country)) -> Returned (list Country) :=
  getOn getCountries (js "Failed to fetch countries").

Definition getTopCountriesOn
  : Arrival (ApiResponse (list CountryVote)) -> Returned (list CountryVote) :=
  getOn getTopCountries (js "Failed to fetch top countries").

Definition searchCountriesOn (q : jsstring)
  : Arrival (ApiResponse (list CountryVote)) -> Returned (list CountryVote) :=
  getOn (searchCountries q) (js "Failed to search countries").

(** [submitVote] reads the body only of a refused response, and [PostBody]
    already has the body that is not JSON. *)
Definition submitVoteOn (vote : VoteSubmission) (arrival : Arrival PostBody)
  : Returned unit :=
  match content arrival with
  | Shaped answer => Settles (settle (submitVote vote) answer)
  | Garbled status syntaxError =>
      Settles (settle (submitVote vote) (Response status (NotJson syntaxError)))
  end.

End FetchService.

(* ------------------------------------------------------------------ *)
(** ** [src/api/API.config.ts]: the axios instance and its interceptors *)

Module APIConfig.

Definition timeout : N := 10000.

(** [AxiosError<{ message: string; statusCode: number }>], as far as the
    response interceptor reads it: [error.response] (absent when nothing came
    back) with its [data] (absent when the body is no object), whether
    [error.request] is set, and [error.message]. *)
Record ErrorData : Type := { errorDataMessage : option jsstring }.

Record ErrorResponse : Type := { errorData : option ErrorData }.

Record AxiosError : Type := {
  errorResponse : option ErrorResponse;
  errorRequest : bool;
  errorMessage : jsstring
}.

Record AxiosResponse (B : Type) : Type := {
  responseData : B;
  responseStatus : Z
}.

(** [error.response.data?.message] *)
Definition dataMessage (r : ErrorResponse) : option jsstring :=
  match errorData r with
  | Some d => errorDataMessage d
  | None => None
  end.

(** The rejected branch of [API.interceptors.response.use].  The initial
    value ["An unexpected error occurred"] of the local [errorMessage] is
    overwritten on each of the three branches. *)
Definition onRejected (error : AxiosError) : Thrown :=
  let message :=
    match errorResponse error with
    | Some r => orElse (dataMessage r) (errorMessage error)
    | None =>
        if errorRequest error
        then js "Unable to connect to the server. Please try again later."
        else errorMessage error
    end in
  ErrorObject message.

(** The fulfilled branch returns the response as it is. *)
Definition onFulfilled (B : Type) (response : AxiosResponse B)
  : AxiosResponse B := response.

(** axios' default [validateStatus]. *)
Definition validateStatus (status : Z) : bool :=
  ((200 <=? status) && (status <? 300))%Z.

(** The text axios gives the error it raises for a refused status. *)
Definition statusMessage (status : Z) : jsstring :=
  js "Request failed with status code "
  ++ js (DecimalString.NilZero.string_of_int (Z.to_int status)).

(** [API.get] / [API.post]: the adapter turns the answer of the network
    into a response or an [AxiosError], which then goes through the response
    interceptors.  [asData] is how the body reads as error data. *)
Definition dispatch (B : Type) (asData : B -> option ErrorData)
    (answer : NetResult B) : Settled (AxiosResponse B) :=
  match answer with
  | NoResponse raw =>
      Rejected (onRejected {| errorResponse := None;
                              errorRequest := true;
                              errorMessage := raw |})
  | Response status body =>
      if validateStatus status
      then Fulfilled (onFulfilled {| responseData := body;
                                     responseStatus := status |})
      else Rejected (onRejected
                       {| errorResponse := Some {| errorData := asData body |};
                          errorRequest := true;
                          errorMessage := statusMessage status |})
  end.

(** [timeout: 10000]: when no response has come after [timeout] ms the
    adapter aborts the request and raises an error that has a request and no
    response. *)
Definition timedOut (B : Type) (arrival : Arrival B) : bool :=
  timeout <=? latency arrival.

Definition timeoutError : AxiosError :=
  {| errorResponse := None; errorRequest := true;
     errorMessage := js "timeout of 10000ms exceeded" |}.

(** The error for a refused status whose body is empty or not JSON: axios
    leaves such a body as the text it is, and a text has no [message]. *)
Definition garbledError (status : Z) : AxiosError :=
  {| errorResponse := Some {| errorData := None |}; errorRequest := true;
     errorMessage := statusMessage status |}.

(** The [URIError] raised while axios serialises [params] reaches the
    response interceptor as an error with no response and no request. *)
Definition uriError : AxiosError :=
  {| errorResponse := None; errorRequest := false;
     errorMessage := uriMalformed |}.

End APIConfig.

(* ------------------------------------------------------------------ *)
(** ** The service written over the axios instance *)

Module AxiosService.
Import APIConfig.

(** How the two kinds of body read as [error.response.data]. *)
Definition apiResponseData (T : Type) (body : ApiResponse T)
  : option ErrorData :=
  Some {| errorDataMessage := message body |}.

Definition postBodyData (body : PostBody) : option ErrorData :=
  match body with
  | JsonObject msg => Some {| errorDataMessage := msg |}
  | NotJson _ => None
  end.

Definition getCountries : Call (ApiResponse (list Country)) (list Country) :=
  {| request := {| method := GET; path := js "/countries";
                   query := []; payload := None |};
     settle := fun answer =>
       match dispatch (@apiResponseData _) answer with
       | Fulfilled response => Fulfilled (data (responseData response))
       | Rejected e => Rejected e
       end |}.

Definition getTopCountries
  : Call (ApiResponse (list CountryVote)) (list CountryVote) :=
  {| request := {| method := GET; path := js "/votes/top";
                   query := []; payload := None |};
     settle := fun answer =>
       match dispatch (@apiResponseData _) answer with
       | Fulfilled response => Fulfilled (data (responseData response))
       | Rejected e => Rejected e
       end |}.

Definition submitVote (vote : VoteSubmission) : Call PostBody unit :=
  {| request := {| method := POST; path := js "/votes";
                   query := []; payload := Some vote |};
     settle := fun answer =>
       match dispatch postBodyData answer with
       | Fulfilled _ => Fulfilled tt
       | Rejected e => Rejected e
       end |}.

(** [params: { q: query }]: axios encodes the value with
    [encodeURIComponent] when it builds the URL. *)
Definition searchCountries (q : jsstring)
  : GuardedCall (ApiResponse (list CountryVote)) (list CountryVote) :=
  {| before := if isWellFormed q then None else Some (onRejected uriError);
     call :=
       {| request := {| method := GET; path := js "/votes/search";
                        query := [(js "q", q)]; payload := None |};
          settle := fun answer =>
            match dispatch (@apiResponseData _) answer with
            | Fulfilled response => Fulfilled (data (responseData response))
            | Rejected e => Rejected e
            end |} |}.

Definition api : Api.Service :=
  Api.Build_Service getCountries getTopCountries submitVote searchCountries.

(** The methods on any arrival.  A body that is empty or not JSON stays the
    text it is: on a success status the method returns [response.data.data]
    of that text, which is [undefined]. *)
Definition getOn (B A : Type) (method : Call B A) (arrival : Arrival B)
  : Returned A :=
  if timedOut arrival then Settles (Rejected (onRejected timeoutError))
  else match content arrival with
       | Shaped answer => Settles (settle method answer)
       | Garbled status _ =>
           if validateStatus status then FulfilsUndefined
           else Settles (Rejected (onRejected (garbledError status)))
       end.

Definition getCountriesOn
  : Arrival (ApiResponse (list Country)) -> Returned (list Country) :=
  getOn getCountries.

Definition getTopCountriesOn
  : Arrival (ApiResponse (list CountryVote)) -> Returned (list CountryVote) :=
  getOn getTopCountries.

Definition searchCountriesOn (q : jsstring)
  : Arrival (ApiResponse (list CountryVote)) -> Returned (list CountryVote) :=
  getOn (searchCountries q).

(** [submitVote] returns nothing of the response. *)
Definition submitVoteOn (vote : VoteSubmission) (arrival : Arrival PostBody)
  : Returned unit :=
  if timedOut arrival then Settles (Rejected (onRejected timeoutError))
  else match content arrival with
       | Shaped answer => Settles (settle (submitVote vote) answer)
       | Garbled status syntaxError =>
           Settles (settle (submitVote vote)
                      (Response status (NotJson syntaxError)))
       end.

End AxiosService.

(* ================================================================== *)
(** * [src/schemas/vote.schema.ts] *)

(** The schema is exported next to the form but no component imports it.
    A zod string schema is a chain of checks and transforms: they run in the
    order written, on the value as the earlier transforms left it, and a
    failed check records its message without stopping the chain. *)
Module VoteSchema.

Inductive Check : Type :=
| Min (n : N) (msg : jsstring)
| Max (n : N) (msg : jsstring)
| Email (msg : jsstring)
| ToLowerCase
| Trim.

Inductive Field : Type := FName | FEmail | FCountry.

Inductive SafeParse : Type :=
| Success (parsed : VoteSubmission)
| Failure (issues : list (Field * jsstring)).

Section Zod.

(** zod's own pattern for e-mail addresses. *)
Variable emailRegex : jsstring -> bool.

Definition issue (failed : bool) (msg : jsstring) : list jsstring :=
  if failed then [msg] else [].

Fixpoint parseString (checks : list Check) (value : jsstring)
  : list jsstring * jsstring :=
  match checks with
  | [] => ([], value)
  | Min n msg :: rest =>
      let (issues, out) := parseString rest value in
      (issue (length value <? n) msg ++ issues, out)
  | Max n msg :: rest =>
      let (issues, out) := parseString rest value in
      (issue (n <? length value) msg ++ issues, out)
  | Email msg :: rest =>
      let (issues, out) := parseString rest value in
      (issue (negb (emailRegex value)) msg ++ issues, out)
  | ToLowerCase :: rest => parseString rest (toLowerCase value)
  | Trim :: rest => parseString rest (trim value)
  end.

Definition nameSchema : list Check :=
  [ Min 1 (js "Name is required");
    Min 2 (js "Name must be at least 2 characters");
    Max 100 (js "Name must be less than 100 characters");
    Trim ].

Definition emailSchema : list Check :=
  [ Min 1 (js "Email is required");
    Email (js "Invalid email format");
    ToLowerCase;
    Trim ].

Definition countrySchema : list Check :=
  [ Min 1 (js "Please select a country") ].

(** [voteSubmissionSchema.safeParse(data)] *)
Definition validateVoteSubmission (input : VoteSubmission) : SafeParse :=
  let (nameIssues, parsedName) := parseString nameSchema (name input) in
  let (emailIssues, parsedEmail) := parseString emailSchema (email input) in
  let (countryIssues, parsedCountry) :=
    parseString countrySchema (country input) in
  match map (pair FName) nameIssues ++ map (pair FEmail) emailIssues
        ++ map (pair FCountry) countryIssues with
  | [] => Success {| name := parsedName; email := parsedEmail;
                     country := parsedCountry |}
  | issues => Failure issues
  end.

End Zod.

End VoteSchema.

(* ================================================================== *)
(** * [src/components/VotingForm.tsx] *)

Module VotingForm.

(** The [useState] cells of the component.  The list of countries that
    fills the dropdown is loaded on mount and takes no part in a submission;
    it is left out. *)
Record State : Type := mkState {
  formData : VoteSubmission;
  errors : PartialVoteSubmission;
  isSubmitting : bool;
  submitError : jsstring;
  submitSuccess : bool
}.

(** What a handler does, one entry per call, in program order. *)
Inductive Effect : Type :=
| SetFormData (d : VoteSubmission)
| SetErrors (e : PartialVoteSubmission)
| SetIsSubmitting (b : bool)
| SetSubmitError (s : jsstring)
| SetSubmitSuccess (b : bool)
| Send (r : Request)
| OnVoteSubmitted
| SetTimeout (delay : N).

(** The component in its environment: the clock (ms), the due times of the
    pending [setTimeout(() => setSubmitSuccess(false), 3000)] callbacks, the
    votes whose [api.submitVote] promise has not settled yet (oldest first),
    and the effects performed so far (oldest first). *)
Record World : Type := mkWorld {
  state : State;
  clock : N;
  timers : list N;
  inflight : list VoteSubmission;
  trace : list Effect
}.

Definition emptyForm : VoteSubmission :=
  {| name := blank; email := blank; country := blank |}.

Definition initial : World :=
  {| state := {| formData := emptyForm; errors := noErrors;
                 isSubmitting := false; submitError := blank;
                 submitSuccess := false |};
     clock := 0; timers := []; inflight := []; trace := [] |}.

(** Handlers are written in a state monad over [World]. *)
Definition M (A : Type) : Type := World -> A * World.

Definition ret (A : Type) (a : A) : M A := fun w => (a, w).

Definition bind (A B : Type) (m : M A) (k : A -> M B) : M B :=
  fun w => let (a, w') := m w in k a w'.

Definition exec (A : Type) (m : M A) (w : World) : World := snd (m w).

Notation "x <- m ;; k" := (bind m (fun x => k))
  (at level 61, m at next level, right associativity).
Notation "m ;; k" := (bind m (fun _ => k))
  (at level 61, right associativity).

Definition record (e : Effect) (w : World) : World :=
  mkWorld (state w) (clock w) (timers w) (inflight w) (trace w ++ [e]).

Definition withState (f : State -> State) (w : World) : World :=
  mkWorld (f (state w)) (clock w) (timers w) (inflight w) (trace w).

Definition perform (e : Effect) (f : World -> World) : M unit :=
  fun w => (tt, record e (f w)).

Definition setFormData (d : VoteSubmission) : M unit :=
  perform (SetFormData d)
    (withState (fun s => mkState d (errors s) (isSubmitting s)
                           (submitError s) (submitSuccess s))).

Definition setErrors (e : PartialVoteSubmission) : M unit :=
  perform (SetErrors e)
    (withState (fun s => mkState (formData s) e (isSubmitting s)
                           (submitError s) (submitSuccess s))).

Definition setIsSubmitting (b : bool) : M unit :=
  perform (SetIsSubmitting b)
    (withState (fun s => mkState (formData s) (errors s) b
                           (submitError s) (submitSuccess s))).

Definition setSubmitError (msg : jsstring) : M unit :=
  perform (SetSubmitError msg)
    (withState (fun s => mkState (formData s) (errors s) (isSubmitting s)
                           msg (submitSuccess s))).

Definition setSubmitSuccess (b : bool) : M unit :=
  perform (SetSubmitSuccess b)
    (withState (fun s => mkState (formData s) (errors s) (isSubmitting s)
                           (submitError s) b)).

(** [setTimeout(() => setSubmitSuccess(false), delay)] *)
Definition setTimeout (delay : N) : M unit :=
  perform (SetTimeout delay)
    (fun w => mkWorld (state w) (clock w) (timers w ++ [clock w + delay])
                (inflight w) (trace w)).

(** The [onVoteSubmitted] prop: the parent reads the calls off the trace. *)
Definition onVoteSubmitted : M unit := perform OnVoteSubmitted (fun w => w).

(** Calling an [async] service method sends its request; the promise stays
    pending until the network answers. *)
Definition send (vote : VoteSubmission) (r : Request) : M unit :=
  perform (Send r)
    (fun w => mkWorld (state w) (clock w) (timers w) (inflight w ++ [vote])
                (trace w)).

Definition getFormData : M VoteSubmission := fun w => (formData (state w), w).

(** [/^[^\s@]+@[^\s@]+\.[^\s@]+$/] *)
Definition notSpaceOrAt (c : code_unit) : bool :=
  negb (isWhiteSpace c || (c =? 64)).

Definition emailPattern : Regex.regex :=
  Regex.Cat (Regex.Plus (Regex.Class notSpaceOrAt))
    (Regex.Cat (Regex.Class (N.eqb 64))
       (Regex.Cat (Regex.Plus (Regex.Class notSpaceOrAt))
          (Regex.Cat (Regex.Class (N.eqb 46))
             (Regex.Plus (Regex.Class notSpaceOrAt))))).

Definition nameError (d : VoteSubmission) : option jsstring :=
  if negb (truthy (trim (name d))) then Some (js "Name is required")
  else None.

Definition emailError (d : VoteSubmission) : option jsstring :=
  if negb (truthy (trim (email d))) then Some (js "Email is required")
  else if negb (Regex.test emailPattern (email d))
       then Some (js "Invalid email format")
       else None.

Definition countryError (d : VoteSubmission) : option jsstring :=
  if negb (truthy (country d)) then Some (js "Please select a country")
  else None.

Definition newErrors (d : VoteSubmission) : PartialVoteSubmission :=
  {| p_name := nameError d; p_email := emailError d;
     p_country := countryError d |}.

Definition validateForm : M bool :=
  d <- getFormData ;;
  setErrors (newErrors d) ;;
  ret (Nat.eqb (keyCount (newErrors d)) 0).

Section Component.

(** [import { api } from "../api/service"] *)
Variable api : Api.Service.

(** [handleSubmit] up to its [await]. *)
Definition handleSubmit : M unit :=
  setSubmitError blank ;;
  setSubmitSuccess false ;;
  valid <- validateForm ;;
  if negb valid then ret tt
  else
    setIsSubmitting true ;;
    d <- getFormData ;;
    send d (request (Api.submitVote d)).

(** [error instanceof Error ? error.message : "Failed to submit vote"] *)
Definition errorText (error : Thrown) : jsstring :=
  match error with
  | ErrorObject msg => msg
  | OtherValue => js "Failed to submit vote"
  end.

(** [handleSubmit] from the [await] on: the rest of the [try] block, or the
    [catch], and then the [finally]. *)
Definition handleSubmitSettled (outcome : Settled unit) : M unit :=
  match outcome with
  | Fulfilled _ =>
      setSubmitSuccess true ;;
      setFormData emptyForm ;;
      onVoteSubmitted ;;
      setTimeout 3000
  | Rejected error => setSubmitError (errorText error)
  end ;;
  setIsSubmitting false.

(** [<button type="submit" disabled={isSubmitting}>]: the only submit button
    of the form.  While it is disabled the browser submits the form neither
    on a click nor on Enter in a text field, so no submit event reaches
    [handleSubmit]. *)
Definition submitDisabled (s : State) : bool := isSubmitting s.

(** The timers that are due run their callback. *)
Fixpoint fireTimers (now : N) (pending : list N) (w : World) : World :=
  match pending with
  | [] => w
  | due :: rest =>
      if due <=? now then fireTimers now rest (exec (setSubmitSuccess false) w)
      else fireTimers now rest w
  end.

Definition wait (dt : N) (w : World) : World :=
  let now := clock w + dt in
  let w' := fireTimers now (timers w) w in
  mkWorld (state w') now (filter (fun due => negb (due <=? now)) (timers w))
    (inflight w') (trace w').

Inductive Event : Type :=
| ChangeName (v : jsstring)
| ChangeEmail (v : jsstring)
| ChangeCountry (v : jsstring)
| Submit
| Settle (answer : NetResult PostBody)
| Wait (dt : N).

Definition step (w : World) (e : Event) : World :=
  let d := formData (state w) in
  match e with
  | ChangeName v =>
      exec (setFormData {| name := v; email := email d;
                           country := country d |}) w
  | ChangeEmail v =>
      exec (setFormData {| name := name d; email := v;
                           country := country d |}) w
  | ChangeCountry v =>
      exec (setFormData {| name := name d; email := email d;
                           country := v |}) w
  | Submit => if submitDisabled (state w) then w else exec handleSubmit w
  | Settle answer =>
      match inflight w with
      | [] => w
      | vote :: rest =>
          exec (handleSubmitSettled (settle (Api.submitVote vote) answer))
            (mkWorld (state w) (clock w) (timers w) rest (trace w))
      end
  | Wait dt => wait dt w
  end.

Definition run (w : World) (events : list Event) : World :=
  fold_left step events w.

(** The votes sent so far and the number of notifications of the parent. *)
Definition sent (w : World) : list Request :=
  flat_map (fun e => match e with Send r => [r] | _ => [] end) (trace w).

Definition notifications (w : World) : nat :=
  List.length
    (filter (fun e => match e with OnVoteSubmitted => true | _ => false end)
       (trace w)).

End Component.

End VotingForm.

(* ================================================================== *)
(** * [src/components/CountryTable.tsx] *)

Module CountryTable.

Record State : Type := mkState {
  countries : list CountryVote;
  searchQuery : jsstring;
  isLoading : bool;
  error : jsstring
}.

(** The [async] function a pending promise resumes: [loadTopCountries], or
    [searchCountries] with the [searchQuery] of the render that called it. *)
Inductive Loader : Type :=
| LoadTopCountries
| SearchCountries (q : jsstring).

(** A timer of the page's timer table: the handle [setTimeout] returned for
    it, the time it is due at and the [searchQuery] its callback closes
    over. *)
Record Timer : Type := {
  handle : nat;
  due : N;
  captured : jsstring
}.

(** The component in its environment: the [refreshTrigger] prop of the last
    render; the clock (ms); the timer table, holding the timers set and
    neither run nor cleared, in the order they were set (with the one delay of
    300 ms that is the order they come due in); the handle [setTimeout]
    returns next; [debounce], the constant of that name in the last run of
    the search effect, which is the handle its cleanup closes over (none
    before the effect has run); the promises not settled yet (each under the
    number of its request) and the requests sent so far with the time they
    were sent at (oldest first; a request's number is its position in this
    list). *)
Record World : Type := mkWorld {
  state : State;
  refreshTrigger : Z;
  clock : N;
  timers : list Timer;
  nextHandle : nat;
  debounce : option nat;
  pending : list (nat * Loader);
  issued : list (N * Request)
}.

Definition withState (f : State -> State) (w : World) : World :=
  mkWorld (f (state w)) (refreshTrigger w) (clock w) (timers w)
    (nextHandle w) (debounce w) (pending w) (issued w).

Definition setCountries (l : list CountryVote) : World -> World :=
  withState (fun s => mkState l (searchQuery s) (isLoading s) (error s)).

Definition setSearchQuery (q : jsstring) : World -> World :=
  withState (fun s => mkState (countries s) q (isLoading s) (error s)).

Definition setIsLoading (b : bool) : World -> World :=
  withState (fun s => mkState (countries s) (searchQuery s) b (error s)).

Definition setError (msg : jsstring) : World -> World :=
  withState (fun s => mkState (countries s) (searchQuery s) (isLoading s) msg).

(** Calling a service method sends its request now and leaves a promise
    pending for [loader]. *)
Definition send (loader : Loader) (r : Request) (w : World) : World :=
  mkWorld (state w) (refreshTrigger w) (clock w) (timers w) (nextHandle w)
    (debounce w)
    (pending w ++ [(List.length (issued w), loader)])
    (issued w ++ [(clock w, r)]).

(** [setTimeout(callback, delay)], for a callback that closes over [q]: the
    timer joins the table under a handle not used before. *)
Definition setTimeout (delay : N) (q : jsstring) (w : World) : World :=
  mkWorld (state w) (refreshTrigger w) (clock w)
    (timers w
     ++ [{| handle := nextHandle w; due := clock w + delay; captured := q |}])
    (S (nextHandle w)) (debounce w) (pending w) (issued w).

(** [clearTimeout(h)]: the timer of that handle leaves the table; nothing
    happens when it has run or was cleared before. *)
Definition clearTimeout (h : nat) (w : World) : World :=
  mkWorld (state w) (refreshTrigger w) (clock w)
    (filter (fun t => negb (Nat.eqb (handle t) h)) (timers w))
    (nextHandle w) (debounce w) (pending w) (issued w).

Definition setClock (t : N) (w : World) : World :=
  mkWorld (state w) (refreshTrigger w) t (timers w) (nextHandle w)
    (debounce w) (pending w) (issued w).

Section Component.

(** [import { api } from "../api/service"] *)
Variable api : Api.Service.

(** [loadTopCountries] up to its [await], and from it on. *)
Definition loadTopCountries (w : World) : World :=
  send LoadTopCountries (request Api.getTopCountries)
    (setError blank (setIsLoading true w)).

Definition loadTopCountriesSettled (outcome : Settled (list CountryVote))
    (w : World) : World :=
  setIsLoading false
    match outcome with
    | Fulfilled data => setCountries data w
    | Rejected _ => setError (js "Failed to load countries") w
    end.

(** [searchCountries] from its [await] on. *)
Definition searchCountriesSettled (outcome : Settled (list CountryVote))
    (w : World) : World :=
  setIsLoading false
    match outcome with
    | Fulfilled data => setCountries data w
    | Rejected _ => setError (js "Failed to search countries") w
    end.

(** [searchCountries] up to its [await]; [q] is the [searchQuery] it closes
    over.  When [api.searchCountries] throws before it sends, the promise
    awaited is rejected already and the [catch] and [finally] blocks run
    before any other event. *)
Definition searchCountries (q : jsstring) (w : World) : World :=
  let started := setError blank (setIsLoading true w) in
  match before (Api.searchCountries q) with
  | Some e => searchCountriesSettled (Rejected e) started
  | None =>
      send (SearchCountries q) (request (Api.searchCountries q)) started
  end.

(** The first effect, [useEffect(() => { loadTopCountries() },
    [refreshTrigger])]. *)
Definition refreshEffect (w : World) : World := loadTopCountries w.

(** The callback of the debounce timer, created by the render whose
    [searchQuery] is [q]. *)
Definition debounceCallback (q : jsstring) (w : World) : World :=
  if truthy (trim q) then searchCountries q w else loadTopCountries w.

(** The second effect, with dependency [searchQuery]:
    [const debounce = setTimeout(..., 300)]. *)
Definition searchEffect (w : World) : World :=
  let set := setTimeout 300 (searchQuery (state w)) w in
  mkWorld (state set) (refreshTrigger set) (clock set) (timers set)
    (nextHandle set) (Some (nextHandle w)) (pending set) (issued set).

(** Its cleanup, [return () => clearTimeout(debounce)], which React runs
    before the effect runs again. *)
Definition searchEffectCleanup (w : World) : World :=
  match debounce w with
  | Some h => clearTimeout h w
  | None => w
  end.

(** The component before its first render and once mounted with the prop
    [refreshTrigger = n]: both effects have run, in the order written. *)
Definition unmounted (n : Z) : World :=
  {| state := {| countries := []; searchQuery := blank; isLoading := true;
                 error := blank |};
     refreshTrigger := n; clock := 0; timers := []; nextHandle := 0;
     debounce := None; pending := []; issued := [] |}.

Definition mount (n : Z) : World := searchEffect (refreshEffect (unmounted n)).

(** [onChange={(e) => setSearchQuery(e.target.value)}]; setting a state to
    the value it has renders nothing and runs no effect. *)
Definition change (v : jsstring) (w : World) : World :=
  if eqb v (searchQuery (state w)) then w
  else searchEffect (searchEffectCleanup (setSearchQuery v w)).

(** The parent renders the table with [refreshTrigger = n]. *)
Definition render (n : Z) (w : World) : World :=
  if (n =? refreshTrigger w)%Z then w
  else refreshEffect
         (mkWorld (state w) n (clock w) (timers w) (nextHandle w)
            (debounce w) (pending w) (issued w)).

Fixpoint lookup (id : nat) (l : list (nat * Loader)) : option Loader :=
  match l with
  | [] => None
  | (k, loader) :: rest => if Nat.eqb k id then Some loader else lookup id rest
  end.

Definition remove (id : nat) (l : list (nat * Loader)) : list (nat * Loader) :=
  filter (fun entry => negb (Nat.eqb (fst entry) id)) l.

(** How the promise a loader awaits settles, and the loader resuming. *)
Definition outcomeOf (loader : Loader)
    (answer : NetResult (ApiResponse (list CountryVote)))
  : Settled (list CountryVote) :=
  match loader with
  | LoadTopCountries => settle Api.getTopCountries answer
  | SearchCountries q => settle (Api.searchCountries q) answer
  end.

Definition resume (loader : Loader) (outcome : Settled (list CountryVote))
  : World -> World :=
  match loader with
  | LoadTopCountries => loadTopCountriesSettled outcome
  | SearchCountries _ => searchCountriesSettled outcome
  end.

(** The network answers request number [id], with a body of the declared
    shape when it has one. *)
Definition settled (id : nat)
    (answer : NetResult (ApiResponse (list CountryVote))) (w : World)
  : World :=
  let w' := mkWorld (state w) (refreshTrigger w) (clock w) (timers w)
              (nextHandle w) (debounce w) (remove id (pending w))
              (issued w) in
  match lookup id (pending w) with
  | None => w
  | Some loader => resume loader (outcomeOf loader answer) w'
  end.

(** The timers of [table] that are due by [now] run, each at its due time:
    the timer leaves the table and its callback is called. *)
Fixpoint fire (now : N) (table : list Timer) (w : World) : World :=
  match table with
  | [] => w
  | t :: later =>
      if due t <=? now
      then fire now later
             (debounceCallback (captured t)
                (clearTimeout (handle t) (setClock (due t) w)))
      else fire now later w
  end.

(** [dt] ms pass. *)
Definition wait (dt : N) (w : World) : World :=
  let now := clock w + dt in
  setClock now (fire now (timers w) w).

Inductive Event : Type :=
| Change (v : jsstring)
| Render (n : Z)
| Settle (id : nat) (answer : NetResult (ApiResponse (list CountryVote)))
| Wait (dt : N).

Definition step (w : World) (e : Event) : World :=
  match e with
  | Change v => change v w
  | Render n => render n w
  | Settle id answer => settled id answer w
  | Wait dt => wait dt w
  end.

Definition run (w : World) (events : list Event) : World :=
  fold_left step events w.

End Component.

End CountryTable.

(* ================================================================== *)
(** * [src/App.tsx] *)

Module App.

Record World : Type := mkWorld {
  refreshTrigger : Z;
  form : VotingForm.World;
  table : CountryTable.World
}.

(** [setRefreshTrigger((prev) => prev + 1)] *)
Definition handleVoteSubmitted (w : World) : World :=
  mkWorld (refreshTrigger w + 1)%Z (form w) (table w).

Section Application.

Variable api : Api.Service.

(** [useState(0)], [<VotingForm onVoteSubmitted={handleVoteSubmitted} />]
    and [<CountryTable refreshTrigger={refreshTrigger} />]. *)
Definition mount : World :=
  {| refreshTrigger := 0; form := VotingForm.initial;
     table := CountryTable.mount api 0 |}.

(** After a change of state [App] renders again and hands the table the
    current [refreshTrigger]. *)
Definition render (w : World) : World :=
  mkWorld (refreshTrigger w) (form w)
    (CountryTable.render api (refreshTrigger w) (table w)).

(** An event of the form: the form handles it, each call of the
    [onVoteSubmitted] prop it made runs [handleVoteSubmitted], and the
    application renders. *)
Definition formStep (e : VotingForm.Event) (w : World) : World :=
  let form' := VotingForm.step api (form w) e in
  let calls :=
    (VotingForm.notifications form' - VotingForm.notifications (form w))%nat in
  render (Nat.iter calls handleVoteSubmitted
            (mkWorld (refreshTrigger w) form' (table w))).

Definition tableStep (e : CountryTable.Event) (w : World) : World :=
  mkWorld (refreshTrigger w) (form w) (CountryTable.step api (table w) e).

Inductive Event : Type :=
| ChangeName (v : jsstring)
| ChangeEmail (v : jsstring)
| ChangeCountry (v : jsstring)
| Submit
| VoteSettled (answer : NetResult PostBody)
| Search (v : jsstring)
| RankingSettled (id : nat)
    (answer : NetResult (ApiResponse (list CountryVote)))
| Wait (dt : N).

Definition step (w : World) (e : Event) : World :=
  match e with
  | ChangeName v => formStep (VotingForm.ChangeName v) w
  | ChangeEmail v => formStep (VotingForm.ChangeEmail v) w
  | ChangeCountry v => formStep (VotingForm.ChangeCountry v) w
  | Submit => formStep VotingForm.Submit w
  | VoteSettled answer => formStep (VotingForm.Settle answer) w
  | Search v => tableStep (CountryTable.Change v) w
  | RankingSettled id answer => tableStep (CountryTable.Settle id answer) w
  | Wait dt =>
      tableStep (CountryTable.Wait dt) (formStep (VotingForm.Wait dt) w)
  end.

Definition run (w : World) (events : list Event) : World :=
  fold_left step events w.

End Application.

End App.

(* ================================================================== *)
(** * Vocabulary of the properties *)

Module Scenario.





(** The requests a debounce callback sends for a text: the top rankings
    for a text that trims to the empty string, the search for any other text
    unless [searchCountries] throws before it sends. *)
Definition rankingRequests (api : Api.Service) (text : jsstring)
  : list Request :=
  if truthy (trim text)
  then match before (Api.searchCountries text) with
       | Some _ => []
       | None => [request (Api.searchCountries text)]
       end
  else [request Api.getTopCountries].


(** Concrete data. *)
Definition france : CountryVote :=
  {| cv_country := js "France"; capital := js "Paris"; region := js "Europe";
     subRegion := js "Western Europe"; votes := 3; rank := 2 |}.

Definition brazil : CountryVote :=
  {| cv_country := js "Brazil"; capital := js "Brasilia";
     region := js "Americas"; subRegion := js "South America";
     votes := 5; rank := 1 |}.

Definition rankings (l : list CountryVote)
  : NetResult (ApiResponse (list CountryVote)) :=
  Response 200 {| data := l; message := None |}.

Definition vote (n e c : string) : VoteSubmission :=
  {| name := js n; email := js e; country := js c |}.

(** The user fills the three fields of the form. *)
Definition fill (v : VoteSubmission) : list VotingForm.Event :=
  [ VotingForm.ChangeName (name v); VotingForm.ChangeEmail (email v);
    VotingForm.ChangeCountry (country v) ].

Definition accepted : NetResult PostBody := Response 200 (JsonObject None).

(** The form passes [validateForm]. *)
Definition passes (d : VoteSubmission) : bool :=
  Nat.eqb (keyCount (VotingForm.newErrors d)) 0.

(** As many votes are in flight as [isSubmitting] tells: one or none. *)
Definition oneInFlight (w : VotingForm.World) : Prop :=
  List.length (VotingForm.inflight w)
  = if VotingForm.isSubmitting (VotingForm.state w) then 1%nat else 0%nat.

(** The table was last rendered with the [refreshTrigger] of [App]. *)
Definition inSync (w : App.World) : Prop :=
  CountryTable.refreshTrigger (App.table w) = App.refreshTrigger w.

(** What the submission would be once normalised the way the schema
    describes: name trimmed, e-mail in lower case and trimmed. *)
Definition normalized (d : VoteSubmission) : VoteSubmission :=
  {| name := trim (name d); email := trim (toLowerCase (email d));
     country := country d |}.

(** The effects of [handleSubmit] on a successful response, in the order
    the handler performs them. *)
Definition successEffects : list VotingForm.Effect :=
  [ VotingForm.SetSubmitSuccess true;
    VotingForm.SetFormData VotingForm.emptyForm;
    VotingForm.OnVoteSubmitted;
    VotingForm.SetTimeout 3000;
    VotingForm.SetIsSubmitting false ].

End Scenario.

(* ================================================================== *)
(** * [VotingForm.tsx]: the list of countries of the dropdown *)

(** The [countries] cell of the form lives apart from the cells a
    submission touches: it is set once, by [loadCountries], and read by the
    dropdown. *)
Module CountryList.

Section Component.

Variable api : Api.Service.

(** [loadCountries] up to its [await]: the request it sends on mount. *)
Definition loadCountries : Request := request Api.getCountries.

(** [loadCountries] from the [await] on: [setCountries(data)], or the
    [catch], which only logs the error. *)
Definition loadCountriesSettled
    (answer : NetResult (ApiResponse (list Country)))
    (countries : list Country) : list Country :=
  match settle Api.getCountries answer with
  | Fulfilled data => data
  | Rejected _ => countries
  end.

End Component.

(** [countries.find((c) => c.code === formData.country)] *)
Definition selectedCountry (countries : list Country)
    (formData : VoteSubmission) : option Country :=
  find (fun c => eqb (code c) (country formData)) countries.

(** [{selectedCountry?.name || "Country"}] *)
Definition selectLabel (countries : list Country)
    (formData : VoteSubmission) : jsstring :=
  orElse (option_map countryName (selectedCountry countries formData))
    (js "Country").

End CountryList.

(* ================================================================== *)
(** * [CountryTable.tsx]: what the table renders *)

Module TableView.

(** The body of the table: the row "No countries found" when
    [countries.length === 0], one row per country otherwise. *)
Inductive Body : Type :=
| NoCountriesFound
| Rows (rows : list CountryVote).

(** The three conditional blocks of the JSX: [{isLoading && ...}],
    [{error && ...}] and [{!isLoading && !error && ...}]. *)
Record View : Type := {
  loading : bool;
  errorBanner : option jsstring;
  table : option Body
}.

Definition render (s : CountryTable.State) : View :=
  {| loading := CountryTable.isLoading s;
     errorBanner :=
       if truthy (CountryTable.error s) then Some (CountryTable.error s)
       else None;
     table :=
       if negb (CountryTable.isLoading s)
          && negb (truthy (CountryTable.error s))
       then Some match CountryTable.countries s with
                 | [] => NoCountriesFound
                 | rows => Rows rows
                 end
       else None |}.

End TableView.

(* ================================================================== *)
(** * Invariants of the components *)

Module Invariant.

(** The request a loader sends. *)
Definition requestOf (api : Api.Service) (loader : CountryTable.Loader)
  : Request :=
  match loader with
  | CountryTable.LoadTopCountries => request Api.getTopCountries
  | CountryTable.SearchCountries q => request (Api.searchCountries q)
  end.

(** The text a loader shows when its request fails. *)
Definition failureText (loader : CountryTable.Loader) : jsstring :=
  match loader with
  | CountryTable.LoadTopCountries => js "Failed to load countries"
  | CountryTable.SearchCountries _ => js "Failed to search countries"
  end.

(** A loader the component can start: the top rankings, or a search for a
    text that does not trim to the empty string. *)
Definition startable (loader : CountryTable.Loader) : Prop :=
  match loader with
  | CountryTable.LoadTopCountries => True
  | CountryTable.SearchCountries q => truthy (trim q) = true
  end.

(** At most one timer is in the table; it is the one the cleanup of the
    search effect holds, it closes over the text the box shows and it is due
    within the next 300 ms. *)
Definition timerFresh (w : CountryTable.World) : Prop :=
  (List.length (CountryTable.timers w) <= 1)%nat
  /\ forall t, In t (CountryTable.timers w) ->
       CountryTable.debounce w = Some (CountryTable.handle t)
       /\ CountryTable.captured t
          = CountryTable.searchQuery (CountryTable.state w)
       /\ CountryTable.clock w < CountryTable.due t
          <= CountryTable.clock w + 300.

(** What one action of the table does to the pending promises and to the
    log of requests: nothing, or it settles one promise, or it starts one
    startable loader. *)
Definition logStep (api : Api.Service) (w w' : CountryTable.World) : Prop :=
  (CountryTable.pending w' = CountryTable.pending w
   /\ CountryTable.issued w' = CountryTable.issued w)
  \/ (exists id,
        CountryTable.pending w'
        = CountryTable.remove id (CountryTable.pending w)
        /\ CountryTable.issued w' = CountryTable.issued w)
  \/ (exists loader t,
        startable loader
        /\ CountryTable.pending w'
           = CountryTable.pending w
             ++ [(List.length (CountryTable.issued w), loader)]
        /\ CountryTable.issued w'
           = CountryTable.issued w ++ [(t, requestOf api loader)]).

(** Every pending promise stands under the number of a request of the
    log, the request its loader sends, and no number stands twice. *)
Definition pendingIssued (api : Api.Service) (w : CountryTable.World)
  : Prop :=
  NoDup (map fst (CountryTable.pending w))
  /\ forall id loader,
       In (id, loader) (CountryTable.pending w) ->
       exists t,
         nth_error (CountryTable.issued w) id = Some (t, requestOf api loader).

(** Every request of the log is one a startable loader sends. *)
Definition onlyRankingRequests (api : Api.Service) (w : CountryTable.World)
  : Prop :=
  Forall (fun entry =>
            exists loader, startable loader
                           /\ snd entry = requestOf api loader)
    (CountryTable.issued w).

(** While "Loading..." shows, a request is outstanding. *)
Definition loadingHasPending (w : CountryTable.World) : Prop :=
  CountryTable.isLoading (CountryTable.state w) = true ->
  CountryTable.pending w <> [].

(** While the success banner shows, a timer that clears it is pending and
    due within the next 3000 ms. *)
Definition successHasTimer (w : VotingForm.World) : Prop :=
  VotingForm.submitSuccess (VotingForm.state w) = true ->
  exists due,
    In due (VotingForm.timers w)
    /\ VotingForm.clock w < due <= VotingForm.clock w + 3000.

(** The parent was notified at most once for each vote that was sent and
    is no longer in flight. *)
Definition notifiedForSent (w : VotingForm.World) : Prop :=
  (VotingForm.notifications w + List.length (VotingForm.inflight w)
   <= List.length (VotingForm.sent w))%nat.

(** The refresh signal counts the notifications of the form. *)
Definition signalCounts (w : App.World) : Prop :=
  App.refreshTrigger w = Z.of_nat (VotingForm.notifications (App.form w)).

(** The issues the schema reports for a name, by its length as typed. *)
Definition nameIssues (n : jsstring) : list jsstring :=
  if JsString.length n =? 0
  then [js "Name is required"; js "Name must be at least 2 characters"]
  else if JsString.length n =? 1
       then [js "Name must be at least 2 characters"]
       else if JsString.length n <=? 100 then []
            else [js "Name must be less than 100 characters"].

End Invariant.

(* ================================================================== *)
(** * Properties *)

(** ** Strings *)

Lemma eqb_eq (a b : jsstring) : eqb a b = true <-> a = b.
Proof.
  revert b; induction a as [|x a IH]; intros [|y b]; simpl;
    try (split; (reflexivity || discriminate)).
  rewrite andb_true_iff, N.eqb_eq, IH.
  split; [intros [-> ->]; reflexivity | intros [= -> ->]; auto].
Qed.

Lemma eqb_refl (a : jsstring) : eqb a a = true.
Proof. apply eqb_eq; reflexivity. Qed.


(** A string without white space is its own trim. *)
Lemma trimStart_head (s : jsstring) :
  match s with [] => true | c :: _ => negb (isWhiteSpace c) end = true ->
  trimStart s = s.
Proof.
  destruct s as [|c s]; cbn; [reflexivity|].
  intros H; apply negb_true_iff in H; rewrite H; reflexivity.
Qed.

Lemma forallb_head (p : code_unit -> bool) (s : jsstring) :
  forallb p s = true ->
  match s with [] => true | c :: _ => p c end = true.
Proof.
  destruct s as [|c s]; cbn; [reflexivity|].
  intros H; apply andb_true_iff in H as [H _]; exact H.
Qed.

Lemma forallb_rev (p : code_unit -> bool) (s : jsstring) :
  forallb p s = true -> forallb p (rev s) = true.
Proof.
  rewrite !forallb_forall; intros H x Hx; apply H, in_rev, Hx.
Qed.

Lemma trim_no_space (s : jsstring) :
  forallb (fun c => negb (isWhiteSpace c)) s = true -> trim s = s.
Proof.
  intros H; unfold trim, trimEnd.
  rewrite (trimStart_head s) by (apply (forallb_head _ _ H)).
  rewrite (trimStart_head (rev s))
    by (apply (forallb_head _ _ (forallb_rev _ _ H))).
  apply rev_involutive.
Qed.

(** ** Regular expressions: the matcher decides the declarative reading *)

Section RegexFacts.

Import Regex.

Lemma Matches_empty_inv (w : jsstring) : Matches Empty w -> w = [].
Proof. intros H; inversion H; reflexivity. Qed.

Lemma Matches_class_inv (p : code_unit -> bool) (w : jsstring) :
  Matches (Class p) w -> exists c, w = [c] /\ p c = true.
Proof. intros H; inversion H; subst; eauto. Qed.

Lemma Matches_cat_inv (r s : regex) (w : jsstring) :
  Matches (Cat r s) w -> exists u v, w = u ++ v /\ Matches r u /\ Matches s v.
Proof. intros H; inversion H; subst; eauto. Qed.

Lemma Matches_alt_inv (r s : regex) (w : jsstring) :
  Matches (Alt r s) w -> Matches r w \/ Matches s w.
Proof. intros H; inversion H; subst; auto. Qed.

Lemma nullable_spec (r : regex) : nullable r = true <-> Matches r [].
Proof.
  induction r as [| |p|r IHr s IHs|r IHr s IHs|r IHr]; cbn [nullable].
  - split; [discriminate | intros H; inversion H].
  - split; [intros _; constructor | reflexivity].
  - split; [discriminate | intros H; inversion H].
  - rewrite andb_true_iff, IHr, IHs; split.
    + intros [Hr Hs]; exact (MCat Hr Hs).
    + intros H; apply Matches_cat_inv in H as (u & v & Heq & Hu & Hv).
      symmetry in Heq; apply app_eq_nil in Heq as [-> ->]; auto.
  - rewrite orb_true_iff, IHr, IHs; split.
    + intros [H|H]; [apply MAltL | apply MAltR]; exact H.
    + apply Matches_alt_inv.
  - split; [intros _; constructor | reflexivity].
Qed.

Lemma star_cons (r : regex) (c : code_unit) (w : jsstring) :
  Matches (Star r) w ->
  forall s, w = c :: s ->
    exists u v, s = u ++ v /\ Matches r (c :: u) /\ Matches (Star r) v.
Proof.
  intros H; remember (Star r) as star eqn:Hstar.
  induction H as [| | | | | |r' u v Hu _ Hv IHv]; try discriminate.
  injection Hstar as ->; intros s Heq.
  destruct u as [|x u]; cbn in Heq.
  - apply IHv; [reflexivity | exact Heq].
  - injection Heq as -> <-. exists u, v; auto.
Qed.

Lemma deriv_cat (c : code_unit) (r t : regex) (s : jsstring) :
  (forall u, Matches (deriv c r) u <-> Matches r (c :: u)) ->
  (Matches (Cat (deriv c r) t) s
   <-> exists u v, s = u ++ v /\ Matches r (c :: u) /\ Matches t v).
Proof.
  intros IHr; split.
  - intros H; apply Matches_cat_inv in H as (u & v & -> & Hu & Hv).
    exists u, v; rewrite <- IHr; auto.
  - intros (u & v & -> & Hu & Hv). apply MCat; [apply IHr|]; assumption.
Qed.

Lemma deriv_spec (c : code_unit) (r : regex) :
  forall s, Matches (deriv c r) s <-> Matches r (c :: s).
Proof.
  induction r as [| |p|r IHr t IHt|r IHr t IHt|r IHr]; intros s;
    cbn [deriv].
  - split; intros H; inversion H.
  - split; intros H; inversion H.
  - destruct (p c) eqn:Hp; split; intros H.
    + apply Matches_empty_inv in H as ->. constructor; exact Hp.
    + apply Matches_class_inv in H as (x & [= -> ->] & _). constructor.
    + inversion H.
    + apply Matches_class_inv in H as (x & [= -> ->] & Hx). congruence.
  - pose proof (deriv_cat t s IHr) as Hcat. split.
    + intros H.
      assert (Hcases : Matches (Cat (deriv c r) t) s
                       \/ (nullable r = true /\ Matches (deriv c t) s)).
      { destruct (nullable r); [|left; exact H].
        apply Matches_alt_inv in H as [H|H]; [left | right]; auto. }
      destruct Hcases as [Hl|[Hn Hr]].
      * apply Hcat in Hl as (u & v & -> & Hu & Hv).
        exact (MCat Hu Hv).
      * apply nullable_spec in Hn. apply IHt in Hr.
        exact (MCat Hn Hr).
    + intros H; apply Matches_cat_inv in H as (u & v & Heq & Hu & Hv).
      destruct u as [|x u]; cbn in Heq.
      * subst v. apply nullable_spec in Hu as Hn; rewrite Hn.
        apply MAltR, IHt, Hv.
      * injection Heq as <- ->.
        assert (Hl : Matches (Cat (deriv c r) t) (u ++ v))
          by (apply Hcat; exists u, v; auto).
        destruct (nullable r); [apply MAltL|]; exact Hl.
  - split; intros H; apply Matches_alt_inv in H as [H|H];
      solve [apply MAltL, IHr, H | apply MAltR, IHt, H].
  - split.
    + intros H; apply Matches_cat_inv in H as (u & v & -> & Hu & Hv).
      apply IHr in Hu. exact (MStarCons Hu Hv).
    + intros H.
      destruct (star_cons H eq_refl) as (u & v & -> & Hu & Hv).
      apply MCat; [apply IHr|]; assumption.
Qed.

Theorem test_spec (r : regex) (s : jsstring) :
  test r s = true <-> Matches r s.
Proof.
  revert r; induction s as [|c s IH]; intros r; cbn [test].
  - apply nullable_spec.
  - rewrite IH; apply deriv_spec.
Qed.

(** [[p]+] matches the non-empty strings made of units of the class. *)
Lemma star_class (p : code_unit -> bool) (s : jsstring) :
  Matches (Star (Class p)) s <-> forallb p s = true.
Proof.
  split.
  - intros H; remember (Star (Class p)) as star eqn:Hstar.
    induction H as [| | | | | |r u v Hu _ Hv IHv]; try discriminate.
    + reflexivity.
    + injection Hstar as ->.
      apply Matches_class_inv in Hu as (x & -> & Hx); cbn.
      rewrite Hx, IHv by reflexivity; reflexivity.
  - induction s as [|c s IH]; cbn; [constructor|].
    rewrite andb_true_iff; intros [Hc Hs].
    exact (MStarCons (MClass p c Hc) (IH Hs)).
Qed.

Lemma plus_class (p : code_unit -> bool) (s : jsstring) :
  Matches (Plus (Class p)) s <-> s <> [] /\ forallb p s = true.
Proof.
  unfold Plus; split.
  - intros H; apply Matches_cat_inv in H as (u & v & -> & Hu & Hv).
    apply Matches_class_inv in Hu as (x & -> & Hx); cbn.
    apply star_class in Hv; rewrite Hx, Hv.
    split; [discriminate | reflexivity].
  - destruct s as [|c s]; intros [Hne Hall]; [congruence|].
    cbn in Hall; apply andb_true_iff in Hall as [Hc Hs].
    exact (MCat (MClass p c Hc) (proj2 (star_class p s) Hs)).
Qed.

(** The strings the e-mail pattern of the form accepts: a non-empty local
    part, [@], and a domain with a dot that has something on both sides,
    all three parts free of white space and of [@]. *)
Theorem emailPattern_spec (s : jsstring) :
  test VotingForm.emailPattern s = true
  <-> exists a b c,
        s = a ++ [64] ++ b ++ [46] ++ c
        /\ a <> [] /\ b <> [] /\ c <> []
        /\ forallb VotingForm.notSpaceOrAt (a ++ b ++ c) = true.
Proof.
  rewrite test_spec; unfold VotingForm.emailPattern; split.
  - intros H.
    apply Matches_cat_inv in H as (a & r1 & -> & Ha & H).
    apply Matches_cat_inv in H as (at1 & r2 & -> & Hat & H).
    apply Matches_cat_inv in H as (b & r3 & -> & Hb & H).
    apply Matches_cat_inv in H as (dot & c & -> & Hdot & Hc).
    apply Matches_class_inv in Hat as (x & -> & Hx).
    apply Matches_class_inv in Hdot as (y & -> & Hy).
    apply N.eqb_eq in Hx, Hy; subst.
    apply plus_class in Ha as [Ha Ha'], Hb as [Hb Hb'], Hc as [Hc Hc'].
    exists a, b, c; repeat split; auto.
    rewrite !forallb_app, !andb_true_iff; auto.
  - intros (a & b & c & -> & Ha & Hb & Hc & Hall).
    rewrite !forallb_app, !andb_true_iff in Hall.
    destruct Hall as (Ha' & Hb' & Hc').
    apply MCat; [apply plus_class; auto|].
    apply (MCat (u := [64])); [constructor; reflexivity|].
    apply MCat; [apply plus_class; auto|].
    apply (MCat (u := [46])); [constructor; reflexivity|].
    apply plus_class; auto.
Qed.

End RegexFacts.

(** ** The ranking table *)

Section TableFacts.

Import CountryTable Scenario.

Variable api : Api.Service.

Lemma run_invariant (P : World -> Prop) :
  (forall w e, P w -> P (step api w e)) ->
  forall events w, P w -> P (run api w events).
Proof.
  intros Hstep events; induction events as [|e events IH]; intros w Hw;
    [exact Hw | exact (IH _ (Hstep _ _ Hw))].
Qed.


Lemma issued_loadTopCountries (w : World) :
  issued (loadTopCountries api w)
  = issued w ++ [(clock w, request Api.getTopCountries)].
Proof. reflexivity. Qed.

(** What the callback of a timer sends, and what it leaves alone. *)
Lemma issued_debounceCallback (q : jsstring) (w : World) :
  issued (debounceCallback api q w)
  = issued w ++ map (pair (clock w)) (rankingRequests api q).
Proof.
  unfold debounceCallback, rankingRequests, searchCountries.
  destruct (truthy (trim q)); [|reflexivity].
  destruct (before (Api.searchCountries q)); cbn;
    [rewrite app_nil_r|]; reflexivity.
Qed.

Lemma debounceCallback_frame (q : jsstring) (w : World) :
  let w' := debounceCallback api q w in
  clock w' = clock w /\ timers w' = timers w
  /\ nextHandle w' = nextHandle w /\ debounce w' = debounce w
  /\ searchQuery (state w') = searchQuery (state w)
  /\ refreshTrigger w' = refreshTrigger w.
Proof.
  unfold debounceCallback, searchCountries.
  destruct (truthy (trim q)); [|cbn; auto 6].
  destruct (before (Api.searchCountries q)); cbn; auto 6.
Qed.

(** The timers that run leave the props, the text of the box and the
    handles alone. *)
Lemma fire_frame (now : N) (table : list Timer) :
  forall w : World,
    refreshTrigger (fire api now table w) = refreshTrigger w
    /\ searchQuery (state (fire api now table w)) = searchQuery (state w)
    /\ nextHandle (fire api now table w) = nextHandle w
    /\ debounce (fire api now table w) = debounce w.
Proof.
  induction table as [|t later IH]; intros w; cbn [fire]; [auto|].
  destruct (due t <=? now); [|apply IH].
  destruct (IH (debounceCallback api (captured t)
                  (clearTimeout (handle t) (setClock (due t) w))))
    as (-> & -> & -> & ->).
  destruct (debounceCallback_frame (captured t)
              (clearTimeout (handle t) (setClock (due t) w)))
    as (_ & _ & -> & -> & -> & ->).
  auto.
Qed.

(** A keystroke that changes the text, when every timer of the table is
    the one the cleanup holds: the table is left with the one timer set now,
    due 300 ms later, and nothing is sent. *)
Lemma change_fresh (v : jsstring) (w : World) :
  (forall t, In t (timers w) -> debounce w = Some (handle t)) ->
  eqb v (searchQuery (state w)) = false ->
  change v w
  = mkWorld (mkState (countries (state w)) v (isLoading (state w))
               (error (state w)))
      (refreshTrigger w) (clock w)
      [{| handle := nextHandle w; due := clock w + 300; captured := v |}]
      (S (nextHandle w)) (Some (nextHandle w)) (pending w) (issued w).
Proof.
  intros Hheld Hne; unfold change; rewrite Hne.
  assert (Hclean : timers (searchEffectCleanup (setSearchQuery v w)) = []).
  { unfold searchEffectCleanup; cbn [debounce setSearchQuery withState].
    revert Hheld; destruct (debounce w) as [h|];
      cbn [timers clearTimeout setSearchQuery withState];
      generalize (timers w) as l; induction l as [|t l IH]; intros Hheld;
      try reflexivity.
    - assert (Ht : Some h = Some (handle t))
        by (apply Hheld; left; reflexivity).
      injection Ht as ->. cbn [filter]; rewrite Nat.eqb_refl; cbn [negb].
      apply IH; intros u Hu; apply Hheld; right; exact Hu.
    - discriminate (Hheld t (or_introl eq_refl)). }
  unfold searchEffect, setTimeout; rewrite Hclean.
  unfold searchEffectCleanup; cbn [debounce setSearchQuery withState].
  destruct (debounce w); reflexivity.
Qed.

(** Time passing short of the due time leaves the timer pending. *)
Lemma wait_before_due (dt : N) (t : Timer) (w : World) :
  timers w = [t] -> clock w + dt < due t ->
  wait api dt w = setClock (clock w + dt) w.
Proof.
  intros Ht Hlt; unfold wait; rewrite Ht; cbn [fire].
  destruct (N.leb_spec (due t) (clock w + dt)); [lia | reflexivity].
Qed.

(** Once the due time has come the callback has run, at the due time. *)
Lemma wait_past_due (dt : N) (t : Timer) (w : World) :
  timers w = [t] -> due t <= clock w + dt ->
  issued (wait api dt w)
  = issued w ++ map (pair (due t)) (rankingRequests api (captured t)).
Proof.
  intros Ht Hle; unfold wait; rewrite Ht; cbn [fire].
  destruct (N.leb_spec (due t) (clock w + dt)); [|lia].
  cbn [issued setClock]; rewrite issued_debounceCallback; reflexivity.
Qed.

(** The timer invariant is kept by every event. *)
Lemma step_timerFresh (w : World) (e : Event) :
  Invariant.timerFresh w -> Invariant.timerFresh (step api w e).
Proof.
  unfold Invariant.timerFresh; intros [Hlen Hw].
  destruct e as [v|n|id answer|dt]; cbn [step].
  - destruct (eqb v (searchQuery (state w))) eqn:Hv;
      [unfold change; rewrite Hv; auto|].
    rewrite change_fresh; [|intros t Ht; apply (Hw t Ht)|exact Hv].
    cbn; split; [lia|]. intros t [<-|[]]; cbn. repeat split; lia.
  - unfold render. destruct (n =? refreshTrigger w)%Z; [auto|exact (conj Hlen Hw)].
  - unfold settled.
    destruct (lookup id (pending w)) as [loader|]; [|auto].
    destruct loader, (outcomeOf api _ answer); exact (conj Hlen Hw).
  - unfold wait. destruct (timers w) as [|t [|u l]] eqn:Ht;
      [| | cbn in Hlen; lia].
    + cbn [fire timers setClock debounce state clock]; rewrite Ht.
      split; [cbn; lia | intros ? []].
    + destruct (Hw t (or_introl eq_refl)) as (Hd & Hq & Hdue).
      cbn [fire]. destruct (N.leb_spec (due t) (clock w + dt)) as [Hle|Hgt].
      * pose proof (debounceCallback_frame (captured t)
                      (clearTimeout (handle t) (setClock (due t) w)))
          as (_ & Htim & _).
        cbn [timers setClock]; rewrite Htim; cbn [timers clearTimeout setClock].
        rewrite Ht; cbn [filter]; rewrite Nat.eqb_refl; cbn.
        split; [lia | intros ? []].
      * cbn [timers setClock debounce state clock]; rewrite Ht.
        split; [cbn; lia|]. intros u [<-|[]]. repeat split; auto; lia.
Qed.

Lemma mount_timerFresh (n : Z) : Invariant.timerFresh (mount api n).
Proof.
  split; [cbn; lia|]. intros t [<-|[]]; cbn. repeat split; lia.
Qed.


End TableFacts.

Section TableCommit.

Import CountryTable.

Variable api : Api.Service.

Lemma lookup_remove_other (id other : nat) (l : list (nat * Loader)) :
  id <> other -> lookup id (remove other l) = lookup id l.
Proof.
  intros Hne; induction l as [|[k loader] l IH]; [reflexivity|].
  unfold remove in *; cbn [filter fst lookup].
  destruct (Nat.eqb_spec k other) as [->|Hk]; cbn [negb].
  - rewrite IH. destruct (Nat.eqb_spec other id); [congruence | reflexivity].
  - cbn [lookup]. rewrite IH; reflexivity.
Qed.

(** A response that succeeds is committed, whichever request it answers. *)
Lemma settled_commits (id : nat) (loader : Loader)
    (answer : NetResult (ApiResponse (list CountryVote)))
    (rows : list CountryVote) (w : World) :
  lookup id (pending w) = Some loader ->
  outcomeOf api loader answer = Fulfilled rows ->
  countries (state (settled api id answer w)) = rows.
Proof.
  intros Hl Ho; unfold settled; rewrite Hl, Ho.
  destruct loader; reflexivity.
Qed.

Lemma pending_settled (id : nat)
    (answer : NetResult (ApiResponse (list CountryVote))) (w : World) :
  forall other, other <> id ->
    lookup other (pending (settled api id answer w))
    = lookup other (pending w).
Proof.
  intros other Hne; unfold settled.
  destruct (lookup id (pending w)) as [loader|]; [|reflexivity].
  destruct loader, (outcomeOf api _ answer); cbn;
    apply lookup_remove_other; exact Hne.
Qed.

End TableCommit.

(** C1, as the code has it: requests carry no sequence number and no
    completion is discarded.  With R1 (request [id1]) sent before R2
    (request [id2]) and both still pending, when the response to R2 arrives
    first and the response to R1 after it, both of them successful, the rows
    committed to [countries] are those of R1, the response that arrived
    last. *)
Theorem C1_last_response_wins (api : Api.Service) (w : CountryTable.World)
    (id1 id2 : nat) (loader1 loader2 : CountryTable.Loader)
    (answer1 answer2 : NetResult (ApiResponse (list CountryVote)))
    (rows1 rows2 : list CountryVote) :
  (id1 < id2)%nat ->
  CountryTable.lookup id1 (CountryTable.pending w) = Some loader1 ->
  CountryTable.lookup id2 (CountryTable.pending w) = Some loader2 ->
  CountryTable.outcomeOf api loader1 answer1 = Fulfilled rows1 ->
  CountryTable.outcomeOf api loader2 answer2 = Fulfilled rows2 ->
  CountryTable.countries
    (CountryTable.state
       (CountryTable.run api w
          [CountryTable.Settle id2 answer2; CountryTable.Settle id1 answer1]))
  = rows1.
Proof.
  intros Hlt H1 H2 Ho1 Ho2; cbn [CountryTable.run fold_left CountryTable.step].
  apply settled_commits with (loader := loader1); [|exact Ho1].
  rewrite pending_settled by lia; exact H1.
Qed.

Lemma C1_last_response_wins_witness :
  CountryTable.countries
    (CountryTable.state
       (CountryTable.run FetchService.api
          (CountryTable.run FetchService.api
             (CountryTable.mount FetchService.api 0)
             [CountryTable.Change (js "fra"); CountryTable.Wait 300])
          [CountryTable.Settle 1 (Scenario.rankings [Scenario.france]);
           CountryTable.Settle 0
             (Scenario.rankings [Scenario.brazil; Scenario.france])]))
  = [Scenario.brazil; Scenario.france].
Proof.
  apply (@C1_last_response_wins FetchService.api _ 0%nat 1%nat
           CountryTable.LoadTopCountries
           (CountryTable.SearchCountries (js "fra")) _ _
           [Scenario.brazil; Scenario.france] [Scenario.france]);
    [lia | reflexivity | reflexivity | reflexivity | reflexivity].
Defined.

(** C1, as stated, fails: the table is mounted (request 0, top rankings),
    the user types "fra" and 300 ms later the search is sent (request 1)
    while request 0 is still pending; the response to request 1 arrives, then
    the response to request 0.  The rows committed are those of request 0,
    not those of request 1, the request sent last. *)
Lemma C1_stale_response_is_committed :
  let w := CountryTable.run FetchService.api
             (CountryTable.mount FetchService.api 0)
             [CountryTable.Change (js "fra"); CountryTable.Wait 300;
              CountryTable.Settle 1 (Scenario.rankings [Scenario.france]);
              CountryTable.Settle 0
                (Scenario.rankings [Scenario.brazil; Scenario.france])] in
  CountryTable.issued w
  = [(0, request FetchService.getTopCountries);
     (300, request (FetchService.searchCountries (js "fra")))]
  /\ CountryTable.countries (CountryTable.state w)
     = [Scenario.brazil; Scenario.france]
  /\ CountryTable.countries (CountryTable.state w) <> [Scenario.france].
Proof.
  cbv zeta; repeat split; [vm_compute; reflexivity .. | vm_compute; discriminate].
Qed.




(** C9: mounting the table sends two top-rankings requests when nothing
    else happens: one at once, from the effect on [refreshTrigger], and a
    second 300 ms later, when the debounce timer set on mount for the blank
    search text runs. *)
Theorem C9_mount_sends_top_twice (api : Api.Service) (n : Z) (T : N) :
  let sent :=
    CountryTable.issued
      (CountryTable.run api (CountryTable.mount api n) [CountryTable.Wait T]) in
  (T < 300 -> sent = [(0, request Api.getTopCountries)])
  /\ (300 <= T ->
      sent = [(0, request Api.getTopCountries);
              (300, request Api.getTopCountries)]).
Proof.
  cbn zeta; cbn [CountryTable.run fold_left CountryTable.step]; split; intros HT.
  - rewrite (@wait_before_due api T
               (CountryTable.Build_Timer 0 300 blank)
               (CountryTable.mount api n) eq_refl); [reflexivity | cbn; lia].
  - rewrite (@wait_past_due api T
               (CountryTable.Build_Timer 0 300 blank)
               (CountryTable.mount api n) eq_refl); [reflexivity | cbn; lia].
Qed.

Lemma C9_mount_sends_top_twice_witness :
  CountryTable.issued
    (CountryTable.run FetchService.api (CountryTable.mount FetchService.api 0)
       [CountryTable.Wait 300])
  = [(0, request FetchService.getTopCountries);
     (300, request FetchService.getTopCountries)].
Proof.
  apply (proj2 (@C9_mount_sends_top_twice FetchService.api 0%Z 300)).
  vm_compute; discriminate.
Defined.

(** ** The voting form *)

Section FormFacts.

Import VotingForm Scenario.

Variable api : Api.Service.

Ltac run_handler :=
  cbv beta iota zeta delta
    [exec handleSubmit handleSubmitSettled validateForm bind ret
     setSubmitError setSubmitSuccess setErrors setIsSubmitting setFormData
     setTimeout onVoteSubmitted send getFormData perform record withState
     fst snd negb state clock timers inflight trace formData errors
     isSubmitting submitError submitSuccess successEffects].

(** [handleSubmit] on a form that passes validation: the vote is sent as
    the form holds it. *)
Lemma handleSubmit_passes (w : World) :
  passes (formData (state w)) = true ->
  exec (handleSubmit api) w
  = mkWorld
      (mkState (formData (state w)) (newErrors (formData (state w))) true
         blank false)
      (clock w) (timers w) (inflight w ++ [formData (state w)])
      (trace w
       ++ [ SetSubmitError blank; SetSubmitSuccess false;
            SetErrors (newErrors (formData (state w)));
            SetIsSubmitting true;
            Send (request (Api.submitVote (formData (state w)))) ]).
Proof.
  destruct w as [[d e i se ss] c t f tr]; unfold passes; cbn [formData state].
  intros Hp; run_handler; rewrite Hp; run_handler.
  rewrite <- !app_assoc; reflexivity.
Qed.

(** [handleSubmit] on a form that fails validation: nothing is sent. *)
Lemma handleSubmit_fails (w : World) :
  passes (formData (state w)) = false ->
  exec (handleSubmit api) w
  = mkWorld
      (mkState (formData (state w)) (newErrors (formData (state w)))
         (isSubmitting (state w)) blank false)
      (clock w) (timers w) (inflight w)
      (trace w
       ++ [ SetSubmitError blank; SetSubmitSuccess false;
            SetErrors (newErrors (formData (state w))) ]).
Proof.
  destruct w as [[d e i se ss] c t f tr]; unfold passes; cbn [formData state].
  intros Hp; run_handler; rewrite Hp; run_handler.
  rewrite <- !app_assoc; reflexivity.
Qed.

(** The continuation of [handleSubmit] on a fulfilled promise. *)
Lemma handleSubmitSettled_fulfilled (u : unit) (w : World) :
  exec (handleSubmitSettled (Fulfilled u)) w
  = mkWorld
      (mkState emptyForm (errors (state w)) false (submitError (state w)) true)
      (clock w) (timers w ++ [clock w + 3000]) (inflight w)
      (trace w ++ successEffects).
Proof.
  destruct w as [[d e i se ss] c t f tr]; run_handler.
  rewrite <- !app_assoc; reflexivity.
Qed.

(** The continuation on a rejected promise: the form is left as it is. *)
Lemma handleSubmitSettled_rejected (e : Thrown) (w : World) :
  exec (handleSubmitSettled (Rejected e)) w
  = mkWorld
      (mkState (formData (state w)) (errors (state w)) false (errorText e)
         (submitSuccess (state w)))
      (clock w) (timers w) (inflight w)
      (trace w ++ [SetSubmitError (errorText e); SetIsSubmitting false]).
Proof.
  destruct w as [[d e' i se ss] c t f tr]; run_handler.
  rewrite <- !app_assoc; reflexivity.
Qed.

End FormFacts.

Section FormInvariant.

Import VotingForm Scenario.

Variable api : Api.Service.

(** Timers only ever clear the success flag. *)
Lemma fireTimers_frame (now : N) (pending : list N) :
  forall w : World,
    let w' := fireTimers now pending w in
    formData (state w') = formData (state w)
    /\ isSubmitting (state w') = isSubmitting (state w)
    /\ inflight w' = inflight w
    /\ submitSuccess (state w')
       = if existsb (fun due => due <=? now) pending then false
         else submitSuccess (state w).
Proof.
  induction pending as [|due rest IH]; intros w; cbn zeta.
  - cbn; auto.
  - cbn [fireTimers existsb]. destruct (due <=? now); cbn [orb].
    + destruct (IH (exec (setSubmitSuccess false) w)) as (Hf & Hs & Hi & Hx).
      rewrite Hf, Hs, Hi, Hx. repeat split.
      destruct (existsb _ rest); reflexivity.
    + apply IH.
Qed.

Lemma wait_frame (dt : N) (w : World) :
  isSubmitting (state (wait dt w)) = isSubmitting (state w)
  /\ inflight (wait dt w) = inflight w.
Proof.
  unfold wait; cbn [state inflight].
  destruct (fireTimers_frame (clock w + dt) (timers w) w) as (_ & Hs & Hi & _).
  auto.
Qed.

(** Every step keeps the number of votes in flight at what [isSubmitting]
    tells. *)
Lemma step_oneInFlight (w : World) (e : Event) :
  oneInFlight w -> oneInFlight (step api w e).
Proof.
  unfold oneInFlight; intros Hinv; destruct e; cbn [step].
  - exact Hinv.
  - exact Hinv.
  - exact Hinv.
  - unfold submitDisabled.
    destruct (isSubmitting (state w)) eqn:Hs; [rewrite Hs; exact Hinv|].
    destruct (passes (formData (state w))) eqn:Hp.
    + rewrite (handleSubmit_passes api w Hp); cbn.
      rewrite length_app, Hinv; reflexivity.
    + rewrite (handleSubmit_fails api w Hp); cbn. rewrite Hs; exact Hinv.
  - destruct (inflight w) as [|vote rest] eqn:Hin; [rewrite Hin; exact Hinv|].
    assert (Hrest : List.length rest = 0%nat)
      by (destruct (isSubmitting (state w)); cbn in Hinv; lia).
    destruct (settle (Api.submitVote vote) answer) as [u|err].
    + rewrite handleSubmitSettled_fulfilled; exact Hrest.
    + rewrite handleSubmitSettled_rejected; exact Hrest.
  - destruct (wait_frame dt w) as (Hs & Hi). rewrite Hs, Hi; exact Hinv.
Qed.

Lemma run_oneInFlight (events : list Event) :
  forall w : World, oneInFlight w -> oneInFlight (run api w events).
Proof.
  induction events as [|e events IH]; intros w Hinv; [exact Hinv|].
  apply IH, step_oneInFlight, Hinv.
Qed.

End FormInvariant.

(** C7: in every state the form can reach, while it is submitting (the
    submit button is disabled) a submit action changes nothing, however many
    times it is repeated: no request is sent and the state stays as it is;
    and exactly one vote is in flight. *)
Theorem C7_submit_ignored_while_submitting (api : Api.Service)
    (events : list VotingForm.Event) (k : nat) :
  let w := VotingForm.run api VotingForm.initial events in
  VotingForm.isSubmitting (VotingForm.state w) = true ->
  VotingForm.run api w (repeat VotingForm.Submit k) = w
  /\ List.length (VotingForm.inflight w) = 1%nat.
Proof.
  intros w Hs; split.
  - induction k as [|k IH]; [reflexivity|].
    cbn [repeat VotingForm.run fold_left VotingForm.step].
    unfold VotingForm.submitDisabled; rewrite Hs; exact IH.
  - assert (Hinv : Scenario.oneInFlight w)
      by (apply run_oneInFlight; reflexivity).
    unfold Scenario.oneInFlight in Hinv; rewrite Hs in Hinv; exact Hinv.
Qed.

Lemma C7_submit_ignored_while_submitting_witness :
  let w := VotingForm.run FetchService.api VotingForm.initial
             (Scenario.fill (Scenario.vote "Al" "a@b.co" "FRA")
              ++ [VotingForm.Submit]) in
  VotingForm.run FetchService.api w (repeat VotingForm.Submit 2) = w
  /\ List.length (VotingForm.inflight w) = 1%nat.
Proof.
  exact (@C7_submit_ignored_while_submitting FetchService.api
           (Scenario.fill (Scenario.vote "Al" "a@b.co" "FRA")
            ++ [VotingForm.Submit]) 2 eq_refl).
Defined.

Section FormSettle.

Import VotingForm Scenario.

Variable api : Api.Service.

(** The world after a successful response to the oldest vote in flight. *)
Lemma settle_fulfilled (w : World) (v : VoteSubmission)
    (rest : list VoteSubmission) (answer : NetResult PostBody) (u : unit) :
  inflight w = v :: rest ->
  settle (Api.submitVote v) answer = Fulfilled u ->
  step api w (Settle answer)
  = mkWorld
      (mkState emptyForm (errors (state w)) false (submitError (state w)) true)
      (clock w) (timers w ++ [clock w + 3000]) rest
      (trace w ++ successEffects).
Proof.
  intros Hin Hok; cbn [step]; rewrite Hin, Hok.
  apply handleSubmitSettled_fulfilled.
Qed.

(** The world after a failure. *)
Lemma settle_rejected (w : World) (v : VoteSubmission)
    (rest : list VoteSubmission) (answer : NetResult PostBody) (e : Thrown) :
  inflight w = v :: rest ->
  settle (Api.submitVote v) answer = Rejected e ->
  step api w (Settle answer)
  = mkWorld
      (mkState (formData (state w)) (errors (state w)) false (errorText e)
         (submitSuccess (state w)))
      (clock w) (timers w) rest
      (trace w ++ [SetSubmitError (errorText e); SetIsSubmitting false]).
Proof.
  intros Hin Hok; cbn [step]; rewrite Hin, Hok.
  apply handleSubmitSettled_rejected.
Qed.

End FormSettle.

(** C5, as the code has it: on a successful response [handleSubmit] sets
    the success indicator, then clears the form fields, then calls the
    vote-submitted notification once, then schedules the clearing of the
    indicator 3000 ms later, and last leaves the submitting state.  When no
    clearing scheduled by an earlier success is still pending and nothing
    else happens, the indicator is shown until 3000 ms have passed and is
    cleared from then on. *)
Theorem C5_success_effects (api : Api.Service) (w : VotingForm.World)
    (v : VoteSubmission) (rest : list VoteSubmission)
    (answer : NetResult PostBody) (dt : N) :
  VotingForm.inflight w = v :: rest ->
  settle (Api.submitVote v) answer = Fulfilled tt ->
  VotingForm.timers w = [] ->
  let w' := VotingForm.step api w (VotingForm.Settle answer) in
  VotingForm.trace w' = VotingForm.trace w ++ Scenario.successEffects
  /\ VotingForm.formData (VotingForm.state w') = VotingForm.emptyForm
  /\ VotingForm.submitSuccess (VotingForm.state w') = true
  /\ VotingForm.notifications w' = S (VotingForm.notifications w)
  /\ VotingForm.submitSuccess
       (VotingForm.state (VotingForm.step api w' (VotingForm.Wait dt)))
     = (dt <? 3000).
Proof.
  intros Hin Hok Ht w'; subst w'.
  rewrite (settle_fulfilled api w answer Hin Hok).
  cbn [VotingForm.trace VotingForm.state VotingForm.formData
       VotingForm.submitSuccess].
  repeat split.
  - unfold VotingForm.notifications; cbn [VotingForm.trace].
    rewrite filter_app, length_app; cbn; lia.
  - rewrite Ht; cbn [VotingForm.step].
    unfold VotingForm.wait.
    cbn [VotingForm.state VotingForm.clock VotingForm.timers app
         VotingForm.fireTimers].
    destruct (N.leb_spec (VotingForm.clock w + 3000) (VotingForm.clock w + dt));
      destruct (N.ltb_spec dt 3000); try lia; reflexivity.
Qed.

Lemma C5_success_effects_witness :
  let w := VotingForm.run FetchService.api VotingForm.initial
             (Scenario.fill (Scenario.vote "Al" "a@b.co" "FRA")
              ++ [VotingForm.Submit]) in
  let w' := VotingForm.step FetchService.api w
              (VotingForm.Settle Scenario.accepted) in
  VotingForm.trace w' = VotingForm.trace w ++ Scenario.successEffects
  /\ VotingForm.formData (VotingForm.state w') = VotingForm.emptyForm
  /\ VotingForm.submitSuccess (VotingForm.state w') = true
  /\ VotingForm.notifications w' = S (VotingForm.notifications w)
  /\ VotingForm.submitSuccess
       (VotingForm.state
          (VotingForm.step FetchService.api w' (VotingForm.Wait 3000)))
     = false.
Proof.
  exact (@C5_success_effects FetchService.api
           (VotingForm.run FetchService.api VotingForm.initial
              (Scenario.fill (Scenario.vote "Al" "a@b.co" "FRA")
               ++ [VotingForm.Submit]))
           (Scenario.vote "Al" "a@b.co" "FRA") [] Scenario.accepted 3000
           eq_refl eq_refl eq_refl).
Defined.

(** C5, as stated, fails on the order: for the vote
    [{name: "Al", email: "a@b.co", country: "FRA"}] accepted by the server,
    the effects of the handler are, in order, the success indicator set,
    the form cleared, the notification, the timer: the indicator is set
    before the form is cleared and before the notification, not after. *)
Lemma C5_success_flag_set_first :
  let w := VotingForm.run FetchService.api VotingForm.initial
             (Scenario.fill (Scenario.vote "Al" "a@b.co" "FRA")
              ++ [VotingForm.Submit]) in
  let w' := VotingForm.step FetchService.api w
              (VotingForm.Settle Scenario.accepted) in
  skipn (List.length (VotingForm.trace w)) (VotingForm.trace w')
  = [ VotingForm.SetSubmitSuccess true;
      VotingForm.SetFormData VotingForm.emptyForm;
      VotingForm.OnVoteSubmitted;
      VotingForm.SetTimeout 3000;
      VotingForm.SetIsSubmitting false ].
Proof. vm_compute; reflexivity. Qed.

(** The clearing of the indicator is never cancelled: after two successes
    1500 ms apart, the timer of the first clears the indicator of the second
    1500 ms after it was set. *)
Lemma success_flag_cleared_by_earlier_timer :
  let v := Scenario.vote "Al" "a@b.co" "FRA" in
  let w := VotingForm.run FetchService.api VotingForm.initial
             (Scenario.fill v
              ++ [VotingForm.Submit; VotingForm.Settle Scenario.accepted;
                  VotingForm.Wait 1000]
              ++ Scenario.fill v
              ++ [VotingForm.Submit; VotingForm.Wait 500;
                  VotingForm.Settle Scenario.accepted]) in
  VotingForm.clock w = 1500
  /\ VotingForm.submitSuccess (VotingForm.state w) = true
  /\ VotingForm.submitSuccess
       (VotingForm.state
          (VotingForm.step FetchService.api w (VotingForm.Wait 1500)))
     = false.
Proof. vm_compute; repeat split. Qed.

(** ** What a failed submission shows *)

(** Over the service of [src/api/service.ts] a rejected vote shows the
    message of the server when it sent one and a fixed text when it sent
    none; when nothing came back, or the body does not parse, it shows the
    raw text of the error. *)
Lemma fetch_submitVote_settle (v : VoteSubmission)
    (answer : NetResult PostBody) :
  settle (FetchService.submitVote v) answer
  = match answer with
    | NoResponse raw => Rejected (ErrorObject raw)
    | Response status body =>
        if FetchService.ok status then Fulfilled tt
        else match body with
             | JsonObject msg =>
                 Rejected (ErrorObject (orElse msg (js "Failed to submit vote")))
             | NotJson syntaxError => Rejected (ErrorObject syntaxError)
             end
    end.
Proof.
  destruct answer as [raw|status body]; cbn; [reflexivity|].
  destruct (FetchService.ok status), body; reflexivity.
Qed.

(** Over the axios instance the response interceptor chooses the text: the
    message of the server when it sent one, the raw text of the error when a
    response came without one, and a fixed text when nothing came back. *)
Lemma axios_submitVote_settle (v : VoteSubmission)
    (answer : NetResult PostBody) :
  settle (AxiosService.submitVote v) answer
  = match answer with
    | NoResponse _ =>
        Rejected
          (ErrorObject
             (js "Unable to connect to the server. Please try again later."))
    | Response status body =>
        if APIConfig.validateStatus status then Fulfilled tt
        else Rejected
               (ErrorObject
                  (orElse
                     match body with JsonObject msg => msg | NotJson _ => None end
                     (APIConfig.statusMessage status)))
    end.
Proof.
  destruct answer as [raw|status body]; cbn; [reflexivity|].
  destruct (APIConfig.validateStatus status); [reflexivity|].
  destruct body; reflexivity.
Qed.

(** Whatever the service, a failure leaves the fields of the form as they
    are and shows one text, that of the error. *)
Lemma failure_keeps_form (api : Api.Service) (w : VotingForm.World)
    (v : VoteSubmission) (rest : list VoteSubmission)
    (answer : NetResult PostBody) (e : Thrown) :
  VotingForm.inflight w = v :: rest ->
  settle (Api.submitVote v) answer = Rejected e ->
  let w' := VotingForm.step api w (VotingForm.Settle answer) in
  VotingForm.formData (VotingForm.state w')
  = VotingForm.formData (VotingForm.state w)
  /\ VotingForm.submitError (VotingForm.state w') = VotingForm.errorText e
  /\ VotingForm.isSubmitting (VotingForm.state w') = false.
Proof.
  intros Hin Hrej w'; subst w'.
  rewrite (settle_rejected api w answer Hin Hrej); cbn; auto.
Qed.

(** C6 on the code: the form imports its [api] from [../api/service], the
    service written over [fetch], which does not go through the axios
    interceptor.  The vote [{name: "Al", email: "a@b.co", country: "FRA"}]
    is submitted and no response comes back: [fetch] rejects with a
    [TypeError] carrying the text [raw] of the platform, "Failed to fetch"
    for one.  The fields are kept, and the text shown is that raw text, not
    the transport-failure text; the service over the axios instance gives
    that text for the same failure. *)
Theorem C6_transport_failure_shows_raw_text (raw : jsstring) :
  let v := Scenario.vote "Al" "a@b.co" "FRA" in
  let failure : NetResult PostBody := NoResponse raw in
  let w := VotingForm.run FetchService.api VotingForm.initial
             (Scenario.fill v
              ++ [VotingForm.Submit; VotingForm.Settle failure]) in
  VotingForm.formData (VotingForm.state w) = v
  /\ VotingForm.submitError (VotingForm.state w) = raw
  /\ VotingForm.isSubmitting (VotingForm.state w) = false
  /\ settle (AxiosService.submitVote v) failure
     = Rejected
         (ErrorObject
            (js "Unable to connect to the server. Please try again later.")).
Proof.
  cbv zeta; split; [|split; [|split]].
  - vm_compute; reflexivity.
  - vm_compute; reflexivity.
  - vm_compute; reflexivity.
  - rewrite axios_submitVote_settle; reflexivity.
Qed.

(** ** What the form validates and sends *)

(** The only rule [validateForm] has for the name: it must not trim to the
    empty string. *)
Lemma nameError_spec (d : VoteSubmission) :
  VotingForm.nameError d
  = match trim (name d) with
    | [] => Some (js "Name is required")
    | _ :: _ => None
    end.
Proof.
  unfold VotingForm.nameError; destruct (trim (name d)); reflexivity.
Qed.

(** An e-mail the pattern accepts holds no white space: it is not empty
    and trimming leaves it as it is. *)
Lemma accepted_email_trim (e : jsstring) :
  Regex.test VotingForm.emailPattern e = true -> e <> [] /\ trim e = e.
Proof.
  intros H; apply emailPattern_spec in H
    as (a & b & c & -> & Ha & _ & _ & Hall).
  split; [destruct a; [congruence | discriminate]|].
  apply trim_no_space.
  assert (Hclass : forall x, VotingForm.notSpaceOrAt x = true ->
                             negb (isWhiteSpace x) = true).
  { unfold VotingForm.notSpaceOrAt; intros x Hx.
    apply negb_true_iff, orb_false_iff in Hx as [Hx _].
    rewrite Hx; reflexivity. }
  rewrite !forallb_app, !andb_true_iff in Hall.
  destruct Hall as (Ha' & Hb' & Hc').
  rewrite !forallb_app, !andb_true_iff; repeat split;
    try reflexivity;
    match goal with
    | |- forallb _ ?l = true =>
        apply forallb_forall; intros x Hx; apply Hclass;
        revert x Hx; apply forallb_forall; assumption
    end.
Qed.

(** What [validateForm] asks of a submission, and nothing more: a name that
    does not trim to the empty string, an e-mail the pattern accepts and a
    country. *)
Lemma passes_spec (d : VoteSubmission) :
  Scenario.passes d = true
  <-> trim (name d) <> [] /\ Regex.test VotingForm.emailPattern (email d) = true
      /\ country d <> [].
Proof.
  unfold Scenario.passes, VotingForm.newErrors, VotingForm.nameError,
    VotingForm.emailError, VotingForm.countryError, keyCount.
  split.
  - intros H.
    destruct (trim (name d)) as [|x n] eqn:Hn; cbn in H; [discriminate|].
    destruct (truthy (trim (email d))); cbn in H; [|discriminate].
    destruct (Regex.test VotingForm.emailPattern (email d)); cbn in H;
      [|discriminate].
    destruct (country d); cbn in H; [discriminate|].
    repeat split; discriminate.
  - intros (Hn & He & Hc).
    destruct (accepted_email_trim _ He) as [Hne Htrim].
    rewrite Htrim, He.
    destruct (trim (name d)); [congruence|].
    destruct (email d); [congruence|].
    destruct (country d); [congruence|]. reflexivity.
Qed.

(** A form that passes is sent as it is. *)
Lemma submit_sends_form_data (api : Api.Service) (w : VotingForm.World) :
  VotingForm.isSubmitting (VotingForm.state w) = false ->
  Scenario.passes (VotingForm.formData (VotingForm.state w)) = true ->
  VotingForm.sent (VotingForm.step api w VotingForm.Submit)
  = VotingForm.sent w
    ++ [request (Api.submitVote (VotingForm.formData (VotingForm.state w)))].
Proof.
  intros Hs Hp; cbn [VotingForm.step]; unfold VotingForm.submitDisabled.
  rewrite Hs, (handleSubmit_passes api w Hp).
  unfold VotingForm.sent; cbn [VotingForm.trace].
  rewrite flat_map_app; reflexivity.
Qed.

(** C2 on the code: [validateForm], the validator [handleSubmit] runs, has
    no rule on the length of the name.  The submission
    [{name: "A", email: "a@b.co", country: "FRA"}], whose name has trimmed
    length 1, passes with no error at all and is sent; a name of 101
    letters passes as well. *)
Theorem C2_short_name_passes_validateForm :
  let v := Scenario.vote "A" "a@b.co" "FRA" in
  let long := {| name := repeat 65 101; email := js "a@b.co";
                 country := js "FRA" |} in
  let w := VotingForm.run FetchService.api VotingForm.initial
             (Scenario.fill v ++ [VotingForm.Submit]) in
  JsString.length (trim (name v)) = 1
  /\ VotingForm.errors (VotingForm.state w) = noErrors
  /\ VotingForm.sent w = [request (FetchService.submitVote v)]
  /\ JsString.length (trim (name long)) = 101
  /\ VotingForm.newErrors long = noErrors.
Proof. cbv zeta; repeat split; vm_compute; reflexivity. Qed.

(** C8 on the code: the submission
    [{name: " Al ", email: "A@B.CO", country: "FRA"}] has a name of trimmed
    length 2, an e-mail the pattern accepts and a country.  [validateForm]
    reports no error, and the body of the request is the form as typed: the
    name is not trimmed and the e-mail is not put in lower case. *)
Theorem C8_request_body_is_not_normalized :
  let v := Scenario.vote " Al " "A@B.CO" "FRA" in
  let w := VotingForm.run FetchService.api VotingForm.initial
             (Scenario.fill v ++ [VotingForm.Submit]) in
  JsString.length (trim (name v)) = 2
  /\ VotingForm.errors (VotingForm.state w) = noErrors
  /\ map payload (VotingForm.sent w) = [Some v]
  /\ Scenario.normalized v = Scenario.vote "Al" "a@b.co" "FRA"
  /\ v <> Scenario.normalized v.
Proof.
  cbv zeta; repeat split; try (vm_compute; reflexivity).
  vm_compute; discriminate.
Qed.

(** ** The schema next to the form *)

(** The schema, which the form does not call, reports the one-letter name
    and normalises the submission [validateForm] lets through as typed. *)
Lemma schema_reports_short_name (emailRegex : jsstring -> bool) :
  emailRegex (js "a@b.co") = true ->
  VoteSchema.validateVoteSubmission emailRegex
    (Scenario.vote "A" "a@b.co" "FRA")
  = VoteSchema.Failure
      [(VoteSchema.FName, js "Name must be at least 2 characters")].
Proof.
  intros He; unfold VoteSchema.validateVoteSubmission.
  cbn [VoteSchema.parseString VoteSchema.emailSchema VoteSchema.nameSchema
       VoteSchema.countrySchema name email country Scenario.vote].
  rewrite He; vm_compute; reflexivity.
Qed.

Lemma schema_normalizes (emailRegex : jsstring -> bool) :
  emailRegex (js "A@B.CO") = true ->
  VoteSchema.validateVoteSubmission emailRegex
    (Scenario.vote " Al " "A@B.CO" "FRA")
  = VoteSchema.Success (Scenario.vote "Al" "a@b.co" "FRA").
Proof.
  intros He; unfold VoteSchema.validateVoteSubmission.
  cbn [VoteSchema.parseString VoteSchema.emailSchema VoteSchema.nameSchema
       VoteSchema.countrySchema name email country Scenario.vote].
  rewrite He; vm_compute; reflexivity.
Qed.

(** ** The application *)

Section AppFacts.

Variable api : Api.Service.

(** The table keeps the prop it was rendered with between renders. *)
Lemma table_change_prop (v : jsstring) (t : CountryTable.World) :
  CountryTable.refreshTrigger (CountryTable.change v t)
  = CountryTable.refreshTrigger t.
Proof.
  unfold CountryTable.change.
  destruct (eqb v (CountryTable.searchQuery (CountryTable.state t)));
    [reflexivity|].
  unfold CountryTable.searchEffectCleanup;
    cbn [CountryTable.debounce CountryTable.setSearchQuery
         CountryTable.withState].
  destruct (CountryTable.debounce t); reflexivity.
Qed.

Lemma table_settled_prop (id : nat)
    (answer : NetResult (ApiResponse (list CountryVote)))
    (t : CountryTable.World) :
  CountryTable.refreshTrigger (CountryTable.settled api id answer t)
  = CountryTable.refreshTrigger t.
Proof.
  unfold CountryTable.settled.
  destruct (CountryTable.lookup id (CountryTable.pending t)) as [loader|];
    [|reflexivity].
  destruct loader, (CountryTable.outcomeOf api _ answer); reflexivity.
Qed.

Lemma table_wait_prop (dt : N) (t : CountryTable.World) :
  CountryTable.refreshTrigger (CountryTable.wait api dt t)
  = CountryTable.refreshTrigger t.
Proof.
  unfold CountryTable.wait; cbn [CountryTable.refreshTrigger
                                  CountryTable.setClock].
  apply fire_frame.
Qed.

Lemma table_render_prop (n : Z) (t : CountryTable.World) :
  CountryTable.refreshTrigger (CountryTable.render api n t) = n.
Proof.
  unfold CountryTable.render.
  destruct (Z.eqb_spec n (CountryTable.refreshTrigger t)); [auto | reflexivity].
Qed.

Lemma formStep_inSync (e : VotingForm.Event) (w : App.World) :
  Scenario.inSync (App.formStep api e w).
Proof.
  unfold Scenario.inSync, App.formStep, App.render; cbn [App.table].
  rewrite table_render_prop; reflexivity.
Qed.

Lemma step_inSync (w : App.World) (e : App.Event) :
  Scenario.inSync w -> Scenario.inSync (App.step api w e).
Proof.
  intros Hs; destruct e; cbn [App.step]; try apply formStep_inSync;
    unfold Scenario.inSync, App.tableStep;
    cbn [App.table App.refreshTrigger CountryTable.step].
  - rewrite table_change_prop; exact Hs.
  - rewrite table_settled_prop; exact Hs.
  - rewrite table_wait_prop; apply formStep_inSync.
Qed.

Lemma run_inSync (events : list App.Event) :
  forall w : App.World,
    Scenario.inSync w -> Scenario.inSync (App.run api w events).
Proof.
  induction events as [|e events IH]; intros w Hs; [exact Hs|].
  apply IH, step_inSync, Hs.
Qed.

End AppFacts.

(** C4: in every state the application can reach, whatever text the search
    box holds, a vote in flight that the server accepts adds exactly 1 to
    the refresh signal, makes the table send exactly one more request, for
    the top rankings, and clears the fields of the form; the search text is
    left as it is. *)
Theorem C4_vote_success_refreshes (api : Api.Service)
    (events : list App.Event) (v : VoteSubmission)
    (rest : list VoteSubmission) (answer : NetResult PostBody) :
  let w := App.run api (App.mount api) events in
  VotingForm.inflight (App.form w) = v :: rest ->
  settle (Api.submitVote v) answer = Fulfilled tt ->
  let w' := App.step api w (App.VoteSettled answer) in
  App.refreshTrigger w' = (App.refreshTrigger w + 1)%Z
  /\ CountryTable.issued (App.table w')
     = CountryTable.issued (App.table w)
       ++ [(CountryTable.clock (App.table w), request Api.getTopCountries)]
  /\ VotingForm.formData (VotingForm.state (App.form w'))
     = VotingForm.emptyForm
  /\ CountryTable.searchQuery (CountryTable.state (App.table w'))
     = CountryTable.searchQuery (CountryTable.state (App.table w)).
Proof.
  intros w Hin Hok w'.
  assert (Hsync : Scenario.inSync w) by (apply run_inSync; reflexivity).
  subst w'; cbn [App.step]; unfold App.formStep.
  rewrite (settle_fulfilled api (App.form w) answer Hin Hok).
  unfold VotingForm.notifications; cbn [VotingForm.trace].
  rewrite filter_app, length_app.
  replace (_ + _ - _)%nat with 1%nat by (cbn; lia).
  cbn [Nat.iter App.handleVoteSubmitted App.refreshTrigger App.form App.table
       nat_rect].
  unfold App.render, CountryTable.render, App.handleVoteSubmitted;
    cbn [App.refreshTrigger App.form App.table].
  unfold Scenario.inSync in Hsync; rewrite Hsync.
  destruct (Z.eqb_spec (App.refreshTrigger w + 1) (App.refreshTrigger w));
    [lia|].
  repeat split.
Qed.

Lemma C4_vote_success_refreshes_witness :
  let events := [ App.Search (js "fra"); App.Wait 300;
                  App.ChangeName (js "Al"); App.ChangeEmail (js "a@b.co");
                  App.ChangeCountry (js "FRA"); App.Submit ] in
  let w := App.run FetchService.api (App.mount FetchService.api) events in
  let w' := App.step FetchService.api w (App.VoteSettled Scenario.accepted) in
  App.refreshTrigger w' = (App.refreshTrigger w + 1)%Z
  /\ CountryTable.issued (App.table w')
     = CountryTable.issued (App.table w)
       ++ [(CountryTable.clock (App.table w),
            request FetchService.getTopCountries)]
  /\ VotingForm.formData (VotingForm.state (App.form w'))
     = VotingForm.emptyForm
  /\ CountryTable.searchQuery (CountryTable.state (App.table w'))
     = CountryTable.searchQuery (CountryTable.state (App.table w)).
Proof.
  exact (@C4_vote_success_refreshes FetchService.api
           [ App.Search (js "fra"); App.Wait 300;
             App.ChangeName (js "Al"); App.ChangeEmail (js "a@b.co");
             App.ChangeCountry (js "FRA"); App.Submit ]
           (Scenario.vote "Al" "a@b.co" "FRA") [] Scenario.accepted
           eq_refl eq_refl).
Defined.

(** ** The two services *)

(** C10: on a response with a success status (200 to 299) the service over
    [fetch] and the service over the axios instance agree: for the list of
    countries, the top rankings and a search, both return the [data] field of
    the body as it is; for a vote both return no value.  They also send the
    same requests. *)
Theorem C10_services_agree_on_success (status : Z)
    (countriesBody : ApiResponse (list Country))
    (rankingsBody : ApiResponse (list CountryVote))
    (postBody : PostBody) (q : jsstring) (v : VoteSubmission) :
  (200 <= status <= 299)%Z ->
  (settle FetchService.getCountries (Response status countriesBody)
   = Fulfilled (data countriesBody)
   /\ settle AxiosService.getCountries (Response status countriesBody)
      = Fulfilled (data countriesBody))
  /\ (settle FetchService.getTopCountries (Response status rankingsBody)
      = Fulfilled (data rankingsBody)
      /\ settle AxiosService.getTopCountries (Response status rankingsBody)
         = Fulfilled (data rankingsBody))
  /\ (settle (FetchService.searchCountries q) (Response status rankingsBody)
      = Fulfilled (data rankingsBody)
      /\ settle (AxiosService.searchCountries q) (Response status rankingsBody)
         = Fulfilled (data rankingsBody))
  /\ (settle (FetchService.submitVote v) (Response status postBody)
      = Fulfilled tt
      /\ settle (AxiosService.submitVote v) (Response status postBody)
         = Fulfilled tt)
  /\ request FetchService.getCountries = request AxiosService.getCountries
  /\ request FetchService.getTopCountries
     = request AxiosService.getTopCountries
  /\ request (FetchService.searchCountries q)
     = request (AxiosService.searchCountries q)
  /\ request (FetchService.submitVote v)
     = request (AxiosService.submitVote v).
Proof.
  intros Hs.
  assert (Hok : FetchService.ok status = true)
    by (unfold FetchService.ok; apply andb_true_iff; split;
        apply Z.leb_le; lia).
  assert (Hvalid : APIConfig.validateStatus status = true)
    by (unfold APIConfig.validateStatus; apply andb_true_iff; split;
        [apply Z.leb_le | apply Z.ltb_lt]; lia).
  cbn [settle call FetchService.getCountries FetchService.getTopCountries
       FetchService.searchCountries FetchService.submitVote
       AxiosService.getCountries AxiosService.getTopCountries
       AxiosService.searchCountries AxiosService.submitVote].
  unfold APIConfig.dispatch; rewrite Hok, Hvalid; cbn.
  repeat split.
Qed.

Lemma C10_services_agree_on_success_witness :
  (settle FetchService.getTopCountries
     (Response 200 {| data := [Scenario.brazil]; message := None |})
   = Fulfilled [Scenario.brazil]
   /\ settle AxiosService.getTopCountries
        (Response 200 {| data := [Scenario.brazil]; message := None |})
      = Fulfilled [Scenario.brazil])
  /\ (settle (FetchService.submitVote (Scenario.vote "Al" "a@b.co" "FRA"))
        Scenario.accepted
      = Fulfilled tt
      /\ settle (AxiosService.submitVote (Scenario.vote "Al" "a@b.co" "FRA"))
           Scenario.accepted
         = Fulfilled tt).
Proof.
  pose proof (@C10_services_agree_on_success 200
                {| data := []; message := None |}
                {| data := [Scenario.brazil]; message := None |}
                (JsonObject None) (js "fra")
                (Scenario.vote "Al" "a@b.co" "FRA")
                ltac:(lia))
    as (_ & Htop & _ & Hvote & _).
  split; [exact Htop | exact Hvote].
Defined.

(** ** Every valid submission goes out as typed *)

Lemma fill_world (api : Api.Service) (w : VotingForm.World)
    (d : VoteSubmission) :
  let w' := VotingForm.run api w (Scenario.fill d) in
  VotingForm.formData (VotingForm.state w') = d
  /\ VotingForm.isSubmitting (VotingForm.state w')
     = VotingForm.isSubmitting (VotingForm.state w)
  /\ VotingForm.sent w' = VotingForm.sent w.
Proof.
  destruct d as [n e c]; cbn; repeat split.
  unfold VotingForm.sent; cbn [VotingForm.trace].
  rewrite !flat_map_app; cbn; rewrite !app_nil_r; reflexivity.
Qed.

(** Whatever the user types, when the name does not trim to the empty
    string, the pattern accepts the e-mail and a country is chosen, the
    form shows no error and the body of the one request is the form as
    typed. *)
Lemma valid_submission_sent_as_typed (d : VoteSubmission) :
  trim (name d) <> [] ->
  Regex.test VotingForm.emailPattern (email d) = true ->
  country d <> [] ->
  let w := VotingForm.run FetchService.api VotingForm.initial
             (Scenario.fill d ++ [VotingForm.Submit]) in
  VotingForm.errors (VotingForm.state w) = noErrors
  /\ map payload (VotingForm.sent w) = [Some d].
Proof.
  intros Hn He Hc w; subst w.
  assert (Hp : Scenario.passes d = true) by (apply passes_spec; auto).
  unfold VotingForm.run; rewrite fold_left_app.
  fold (VotingForm.run FetchService.api VotingForm.initial (Scenario.fill d)).
  destruct (fill_world FetchService.api VotingForm.initial d)
    as (Hd & Hs & Hsent).
  set (w := VotingForm.run FetchService.api VotingForm.initial
              (Scenario.fill d)) in *.
  cbn [fold_left]. split.
  - cbn [VotingForm.step]; unfold VotingForm.submitDisabled.
    rewrite Hs; cbn [VotingForm.isSubmitting VotingForm.state
                     VotingForm.initial].
    rewrite <- Hd in Hp. rewrite (handleSubmit_passes FetchService.api w Hp).
    cbn [VotingForm.errors VotingForm.state].
    rewrite Hd. unfold Scenario.passes in Hp; rewrite Hd in Hp.
    unfold VotingForm.newErrors in *; unfold keyCount in Hp; cbn in Hp.
    destruct (VotingForm.nameError d), (VotingForm.emailError d),
      (VotingForm.countryError d); cbn in Hp; try discriminate; reflexivity.
  - rewrite <- Hd in Hp.
    rewrite (submit_sends_form_data FetchService.api w Hs Hp), Hsent, Hd.
    reflexivity.
Qed.

(** ** The scenarios of the specification *)

(** A submission with a one-letter name, a malformed e-mail and no country:
    the e-mail and the country are reported, the name is not, and nothing is
    sent. *)
Example scenario_invalid_submission :
  let w := VotingForm.run FetchService.api VotingForm.initial
             (Scenario.fill (Scenario.vote "A" "bad" EmptyString)
              ++ [VotingForm.Submit]) in
  VotingForm.errors (VotingForm.state w)
  = {| p_name := None; p_email := Some (js "Invalid email format");
       p_country := Some (js "Please select a country") |}
  /\ VotingForm.sent w = [].
Proof. vm_compute; split; reflexivity. Qed.

(** A search that returns no row leaves an empty table and no error. *)
Example scenario_empty_search :
  let w := CountryTable.run FetchService.api
             (CountryTable.mount FetchService.api 0)
             [CountryTable.Settle 0 (Scenario.rankings [Scenario.brazil]);
              CountryTable.Change (js "zz"); CountryTable.Wait 300;
              CountryTable.Settle 1 (Scenario.rankings [])] in
  CountryTable.state w
  = {| CountryTable.countries := []; CountryTable.searchQuery := js "zz";
       CountryTable.isLoading := false; CountryTable.error := blank |}.
Proof. vm_compute; reflexivity. Qed.

(** A failed load keeps the rows of the last success and sets the error. *)
Example scenario_failed_refresh :
  let w := CountryTable.run FetchService.api
             (CountryTable.mount FetchService.api 0)
             [CountryTable.Settle 0 (Scenario.rankings [Scenario.brazil]);
              CountryTable.Wait 300;
              CountryTable.Settle 1 (NoResponse (js "Failed to fetch"))] in
  CountryTable.state w
  = {| CountryTable.countries := [Scenario.brazil];
       CountryTable.searchQuery := blank;
       CountryTable.isLoading := false;
       CountryTable.error := js "Failed to load countries" |}.
Proof. vm_compute; reflexivity. Qed.

(* ================================================================== *)
(** * Further properties of the code *)

(** ** The validator of the form *)

(** X1: the e-mail pattern of [validateForm] accepts exactly the strings
    made of a non-empty local part, one [@] and a domain, neither part
    holding white space or a further [@], where the domain has a dot with
    something on both of its sides. *)
Theorem X1_email_pattern_shape (s : jsstring) :
  Regex.test VotingForm.emailPattern s = true
  <-> exists local domain,
        s = local ++ [64] ++ domain
        /\ local <> []
        /\ forallb VotingForm.notSpaceOrAt local = true
        /\ forallb VotingForm.notSpaceOrAt domain = true
        /\ exists left right,
             domain = left ++ [46] ++ right /\ left <> [] /\ right <> [].
Proof.
  rewrite emailPattern_spec; split.
  - intros (a & b & c & -> & Ha & Hb & Hc & Hall).
    rewrite !forallb_app, !andb_true_iff in Hall.
    destruct Hall as (Ha' & Hb' & Hc').
    exists a, (b ++ [46] ++ c); repeat split; auto.
    + rewrite !forallb_app, Hb', Hc'; reflexivity.
    + exists b, c; auto.
  - intros (local & domain & -> & Hl & Hl' & Hd' & left & right & -> & Hle & Hr).
    rewrite !forallb_app, !andb_true_iff in Hd'.
    destruct Hd' as (Hleft & _ & Hright).
    exists local, left, right; repeat split; auto.
    rewrite !forallb_app, !andb_true_iff; auto.
Qed.

(** X2: [validateForm] returns [true] exactly when the name does not trim
    to the empty string, the pattern accepts the e-mail as typed and a
    country is chosen, which is exactly when it stores no error; it stores
    the errors it found and touches nothing else of the form. *)
Theorem X2_validateForm_verdict (w : VotingForm.World) :
  let d := VotingForm.formData (VotingForm.state w) in
  let valid := fst (VotingForm.validateForm w) in
  let w' := snd (VotingForm.validateForm w) in
  (valid = true
   <-> trim (name d) <> []
       /\ Regex.test VotingForm.emailPattern (email d) = true
       /\ country d <> [])
  /\ (valid = true <-> VotingForm.errors (VotingForm.state w') = noErrors)
  /\ VotingForm.errors (VotingForm.state w') = VotingForm.newErrors d
  /\ VotingForm.formData (VotingForm.state w') = d
  /\ VotingForm.isSubmitting (VotingForm.state w')
     = VotingForm.isSubmitting (VotingForm.state w)
  /\ VotingForm.inflight w' = VotingForm.inflight w
  /\ VotingForm.sent w' = VotingForm.sent w.
Proof.
  destruct w as [[d e i se ss] c t f tr]; cbn zeta.
  cbv beta iota zeta delta
    [VotingForm.validateForm VotingForm.bind VotingForm.ret
     VotingForm.getFormData VotingForm.setErrors VotingForm.perform
     VotingForm.record VotingForm.withState fst snd VotingForm.state
     VotingForm.formData VotingForm.errors VotingForm.isSubmitting
     VotingForm.submitError VotingForm.submitSuccess VotingForm.clock
     VotingForm.timers VotingForm.inflight VotingForm.trace].
  split; [apply passes_spec|]. split.
  - unfold VotingForm.newErrors, keyCount; cbn [p_name p_email p_country].
    destruct (VotingForm.nameError d), (VotingForm.emailError d),
      (VotingForm.countryError d); cbn; split; intros H;
      try discriminate; reflexivity.
  - repeat split.
    unfold VotingForm.sent; cbn [VotingForm.trace].
    rewrite flat_map_app; cbn; apply app_nil_r.
Qed.

(** X3: a submit action on a form that does not pass validation sends
    nothing and leaves nothing in flight; the fields stay as typed, the form
    does not enter the submitting state, an earlier error text and success
    flag are cleared, and at least one field error is stored. *)
Theorem X3_invalid_submit_sends_nothing (api : Api.Service)
    (w : VotingForm.World) :
  VotingForm.isSubmitting (VotingForm.state w) = false ->
  Scenario.passes (VotingForm.formData (VotingForm.state w)) = false ->
  let w' := VotingForm.step api w VotingForm.Submit in
  VotingForm.sent w' = VotingForm.sent w
  /\ VotingForm.inflight w' = VotingForm.inflight w
  /\ VotingForm.isSubmitting (VotingForm.state w') = false
  /\ VotingForm.formData (VotingForm.state w')
     = VotingForm.formData (VotingForm.state w)
  /\ VotingForm.submitError (VotingForm.state w') = blank
  /\ VotingForm.submitSuccess (VotingForm.state w') = false
  /\ (keyCount (VotingForm.errors (VotingForm.state w')) > 0)%nat.
Proof.
  intros Hs Hp w'; subst w'; cbn [VotingForm.step].
  unfold VotingForm.submitDisabled; rewrite Hs.
  rewrite (handleSubmit_fails api w Hp).
  cbn [VotingForm.state VotingForm.inflight VotingForm.isSubmitting
       VotingForm.formData VotingForm.submitError VotingForm.submitSuccess
       VotingForm.errors].
  repeat split; auto.
  - unfold VotingForm.sent; cbn [VotingForm.trace].
    rewrite flat_map_app; cbn; apply app_nil_r.
  - unfold Scenario.passes in Hp. apply Nat.eqb_neq in Hp. lia.
Qed.

Lemma X3_invalid_submit_sends_nothing_witness :
  let w := VotingForm.run FetchService.api VotingForm.initial
             (Scenario.fill (Scenario.vote "Al" "bad" "FRA")) in
  let w' := VotingForm.step FetchService.api w VotingForm.Submit in
  VotingForm.sent w' = VotingForm.sent w
  /\ VotingForm.inflight w' = VotingForm.inflight w
  /\ VotingForm.isSubmitting (VotingForm.state w') = false
  /\ VotingForm.formData (VotingForm.state w')
     = VotingForm.formData (VotingForm.state w)
  /\ VotingForm.submitError (VotingForm.state w') = blank
  /\ VotingForm.submitSuccess (VotingForm.state w') = false
  /\ (keyCount (VotingForm.errors (VotingForm.state w')) > 0)%nat.
Proof.
  exact (@X3_invalid_submit_sends_nothing FetchService.api
           (VotingForm.run FetchService.api VotingForm.initial
              (Scenario.fill (Scenario.vote "Al" "bad" "FRA")))
           eq_refl eq_refl).
Defined.

(** X4: the form cannot stay stuck in the submitting state: in every state
    it can reach while submitting, whatever the network answers (a success,
    a refusal, nothing at all), the answer takes it out of the submitting
    state and leaves no vote in flight. *)
Theorem X4_answer_ends_submitting (api : Api.Service)
    (events : list VotingForm.Event) (answer : NetResult PostBody) :
  let w := VotingForm.run api VotingForm.initial events in
  VotingForm.isSubmitting (VotingForm.state w) = true ->
  let w' := VotingForm.step api w (VotingForm.Settle answer) in
  VotingForm.isSubmitting (VotingForm.state w') = false
  /\ VotingForm.inflight w' = [].
Proof.
  intros w Hs w'; subst w'.
  assert (Hinv : Scenario.oneInFlight w)
    by (apply run_oneInFlight; reflexivity).
  unfold Scenario.oneInFlight in Hinv; rewrite Hs in Hinv.
  destruct (VotingForm.inflight w) as [|v [|v' rest]] eqn:Hin;
    try discriminate.
  destruct (settle (Api.submitVote v) answer) as [u|e] eqn:Hout.
  - rewrite (settle_fulfilled api w answer Hin Hout); split; reflexivity.
  - rewrite (settle_rejected api w answer Hin Hout); split; reflexivity.
Qed.

Lemma X4_answer_ends_submitting_witness :
  let w := VotingForm.run FetchService.api VotingForm.initial
             (Scenario.fill (Scenario.vote "Al" "a@b.co" "FRA")
              ++ [VotingForm.Submit]) in
  let w' := VotingForm.step FetchService.api w
              (VotingForm.Settle (NoResponse (js "Failed to fetch"))) in
  VotingForm.isSubmitting (VotingForm.state w') = false
  /\ VotingForm.inflight w' = [].
Proof.
  exact (@X4_answer_ends_submitting FetchService.api
           (Scenario.fill (Scenario.vote "Al" "a@b.co" "FRA")
            ++ [VotingForm.Submit])
           (NoResponse (js "Failed to fetch")) eq_refl).
Defined.

(** ** The services and the text a failure shows *)

(** X5: whatever the network answers to a vote in flight, over either
    service the promise of [submitVote] is fulfilled or is rejected with an
    [Error] object, and after a rejection the form shows the message of that
    [Error], unchanged.  So what the user reads after a failed vote is always
    a text the service chose; [handleSubmit] never takes its branch for a
    thrown value that is no [Error]. *)
Theorem X5_failure_shows_error_message (w : VotingForm.World)
    (v : VoteSubmission) (rest : list VoteSubmission)
    (answer : NetResult PostBody) :
  VotingForm.inflight w = v :: rest ->
  (settle (FetchService.submitVote v) answer = Fulfilled tt
   \/ exists msg,
        settle (FetchService.submitVote v) answer = Rejected (ErrorObject msg)
        /\ VotingForm.errorText (ErrorObject msg) = msg
        /\ VotingForm.submitError
             (VotingForm.state
                (VotingForm.step FetchService.api w (VotingForm.Settle answer)))
           = msg)
  /\ (settle (AxiosService.submitVote v) answer = Fulfilled tt
      \/ exists msg,
           settle (AxiosService.submitVote v) answer
           = Rejected (ErrorObject msg)
           /\ VotingForm.errorText (ErrorObject msg) = msg
           /\ VotingForm.submitError
                (VotingForm.state
                   (VotingForm.step AxiosService.api w
                      (VotingForm.Settle answer)))
              = msg).
Proof.
  intros Hin; split.
  - destruct (settle (FetchService.submitVote v) answer) as [[]|e] eqn:Hs;
      [left; reflexivity | right].
    assert (He : exists msg, e = ErrorObject msg).
    { rewrite fetch_submitVote_settle in Hs.
      destruct answer as [raw|status body]; [injection Hs as <-; eauto|].
      destruct (FetchService.ok status); [discriminate|].
      destruct body; injection Hs as <-; eauto. }
    destruct He as [msg ->]; exists msg; repeat split.
    exact (proj1 (proj2 (@failure_keeps_form FetchService.api w v rest answer
                           (ErrorObject msg) Hin Hs))).
  - destruct (settle (AxiosService.submitVote v) answer) as [[]|e] eqn:Hs;
      [left; reflexivity | right].
    assert (He : exists msg, e = ErrorObject msg).
    { rewrite axios_submitVote_settle in Hs.
      destruct answer as [raw|status body]; [injection Hs as <-; eauto|].
      destruct (APIConfig.validateStatus status); [discriminate|].
      injection Hs as <-; eauto. }
    destruct He as [msg ->]; exists msg; repeat split.
    exact (proj1 (proj2 (@failure_keeps_form AxiosService.api w v rest answer
                           (ErrorObject msg) Hin Hs))).
Qed.

Lemma X5_failure_shows_error_message_witness :
  let w := VotingForm.run FetchService.api VotingForm.initial
             (Scenario.fill (Scenario.vote "Al" "a@b.co" "FRA")
              ++ [VotingForm.Submit]) in
  let v := Scenario.vote "Al" "a@b.co" "FRA" in
  let refusal : NetResult PostBody := Response 500 (JsonObject None) in
  (settle (FetchService.submitVote v) refusal = Fulfilled tt
   \/ exists msg,
        settle (FetchService.submitVote v) refusal = Rejected (ErrorObject msg)
        /\ VotingForm.errorText (ErrorObject msg) = msg
        /\ VotingForm.submitError
             (VotingForm.state
                (VotingForm.step FetchService.api w
                   (VotingForm.Settle refusal)))
           = msg)
  /\ (settle (AxiosService.submitVote v) refusal = Fulfilled tt
      \/ exists msg,
           settle (AxiosService.submitVote v) refusal
           = Rejected (ErrorObject msg)
           /\ VotingForm.errorText (ErrorObject msg) = msg
           /\ VotingForm.submitError
                (VotingForm.state
                   (VotingForm.step AxiosService.api w
                      (VotingForm.Settle refusal)))
              = msg).
Proof.
  exact (@X5_failure_shows_error_message
           (VotingForm.run FetchService.api VotingForm.initial
              (Scenario.fill (Scenario.vote "Al" "a@b.co" "FRA")
               ++ [VotingForm.Submit]))
           (Scenario.vote "Al" "a@b.co" "FRA") []
           (Response 500 (JsonObject None)) eq_refl).
Defined.

(** X6: when the server refuses a vote with a status outside 200..299 and
    a non-empty [message], the form shows that message as it is, over the
    service written on [fetch] and over the one on axios alike, and keeps
    the fields as typed. *)
Theorem X6_server_message_shown_verbatim (w : VotingForm.World)
    (v : VoteSubmission) (rest : list VoteSubmission) (status : Z)
    (msg : jsstring) :
  VotingForm.inflight w = v :: rest ->
  (status < 200 \/ 299 < status)%Z ->
  truthy msg = true ->
  let refusal : NetResult PostBody :=
    Response status (JsonObject (Some msg)) in
  let viaFetch :=
    VotingForm.step FetchService.api w (VotingForm.Settle refusal) in
  let viaAxios :=
    VotingForm.step AxiosService.api w (VotingForm.Settle refusal) in
  VotingForm.submitError (VotingForm.state viaFetch) = msg
  /\ VotingForm.submitError (VotingForm.state viaAxios) = msg
  /\ VotingForm.formData (VotingForm.state viaFetch)
     = VotingForm.formData (VotingForm.state w)
  /\ VotingForm.formData (VotingForm.state viaAxios)
     = VotingForm.formData (VotingForm.state w).
Proof.
  intros Hin Hstatus Hmsg refusal viaFetch viaAxios.
  assert (Hok : FetchService.ok status = false).
  { unfold FetchService.ok; apply andb_false_iff.
    destruct Hstatus; [left; apply Z.leb_gt | right; apply Z.leb_gt]; lia. }
  assert (Hvalid : APIConfig.validateStatus status = false).
  { unfold APIConfig.validateStatus; apply andb_false_iff.
    destruct Hstatus; [left; apply Z.leb_gt | right; apply Z.ltb_ge]; lia. }
  assert (Hf : settle (@Api.submitVote FetchService.api v) refusal
               = Rejected (ErrorObject msg)).
  { change (settle (FetchService.submitVote v) refusal
            = Rejected (ErrorObject msg)).
    rewrite fetch_submitVote_settle; subst refusal; cbn.
    rewrite Hok; unfold orElse; rewrite Hmsg; reflexivity. }
  assert (Ha : settle (@Api.submitVote AxiosService.api v) refusal
               = Rejected (ErrorObject msg)).
  { change (settle (AxiosService.submitVote v) refusal
            = Rejected (ErrorObject msg)).
    rewrite axios_submitVote_settle; subst refusal; cbn.
    rewrite Hvalid; unfold orElse; rewrite Hmsg; reflexivity. }
  subst viaFetch viaAxios.
  rewrite (settle_rejected FetchService.api w refusal Hin Hf).
  rewrite (settle_rejected AxiosService.api w refusal Hin Ha).
  repeat split.
Qed.

Lemma X6_server_message_shown_verbatim_witness :
  let w := VotingForm.run FetchService.api VotingForm.initial
             (Scenario.fill (Scenario.vote "Al" "a@b.co" "FRA")
              ++ [VotingForm.Submit]) in
  let refusal : NetResult PostBody :=
    Response 409 (JsonObject (Some (js "Email already voted"))) in
  let viaFetch :=
    VotingForm.step FetchService.api w (VotingForm.Settle refusal) in
  let viaAxios :=
    VotingForm.step AxiosService.api w (VotingForm.Settle refusal) in
  VotingForm.submitError (VotingForm.state viaFetch)
  = js "Email already voted"
  /\ VotingForm.submitError (VotingForm.state viaAxios)
     = js "Email already voted"
  /\ VotingForm.formData (VotingForm.state viaFetch)
     = VotingForm.formData (VotingForm.state w)
  /\ VotingForm.formData (VotingForm.state viaAxios)
     = VotingForm.formData (VotingForm.state w).
Proof.
  exact (@X6_server_message_shown_verbatim
           (VotingForm.run FetchService.api VotingForm.initial
              (Scenario.fill (Scenario.vote "Al" "a@b.co" "FRA")
               ++ [VotingForm.Submit]))
           (Scenario.vote "Al" "a@b.co" "FRA") [] 409
           (js "Email already voted")
           eq_refl ltac:(lia) eq_refl).
Defined.

(** Over [fetch] every arrival settles a method the way some answer of the
    declared shape does: on a success status a body that does not parse acts
    as a failure of the network whose text is that of the [SyntaxError].  The
    components, which are run on answers of the declared shape, so miss none
    of the outcomes of the service they import. *)
Lemma fetch_arrival_as_answer :
  (forall arrival, exists answer,
      FetchService.getCountriesOn arrival
      = Settles (settle FetchService.getCountries answer))
  /\ (forall arrival, exists answer,
         FetchService.getTopCountriesOn arrival
         = Settles (settle FetchService.getTopCountries answer))
  /\ (forall q arrival, exists answer,
         FetchService.searchCountriesOn q arrival
         = Settles (settle (FetchService.searchCountries q) answer))
  /\ (forall v arrival, exists answer,
         FetchService.submitVoteOn v arrival
         = Settles (settle (FetchService.submitVote v) answer)).
Proof.
  repeat split; intros;
    match goal with
    | a : Arrival _ |- _ => destruct a as [late [answer|status syntaxError]]
    end;
    try (exists answer; reflexivity).
  1-3: destruct (FetchService.ok status) eqn:Hok;
    [exists (NoResponse syntaxError)
    | exists (Response status {| data := []; message := None |})];
    unfold FetchService.getCountriesOn, FetchService.getTopCountriesOn,
      FetchService.searchCountriesOn, FetchService.getOn;
    cbn [content settle call FetchService.getCountries
         FetchService.getTopCountries FetchService.searchCountries];
    rewrite ?Hok; reflexivity.
  exists (Response status (NotJson syntaxError)); reflexivity.
Qed.

(** On an answer whose body has the declared shape the two services
    succeed alike. *)
Lemma services_succeed_alike (B A : Type) (fetched sent : Call B A) :
  (forall answer x,
      settle fetched answer = Fulfilled x <-> settle sent answer = Fulfilled x)
  ->
  forall (arrival : Arrival B) (failed : jsstring) (x : A),
    AxiosService.getOn sent arrival = Settles (Fulfilled x)
    <-> latency arrival < APIConfig.timeout
        /\ FetchService.getOn fetched failed arrival = Settles (Fulfilled x).
Proof.
  intros Hsame [late [answer|status syntaxError]] failed x;
    unfold AxiosService.getOn, FetchService.getOn, APIConfig.timedOut;
    cbn [latency content];
    destruct (N.leb_spec APIConfig.timeout late) as [Hout|Hin].
  - split; [discriminate | intros [Hlt _]; lia].
  - split.
    + intros [= H]; split; [exact Hin|]. f_equal; apply Hsame; exact H.
    + intros [_ [= H]]; f_equal; apply Hsame; exact H.
  - split; [discriminate | intros [Hlt _]; lia].
  - split.
    + destruct (APIConfig.validateStatus status); discriminate.
    + intros [_ H]; destruct (negb (FetchService.ok status)); discriminate.
Qed.

Lemma validateStatus_ok (status : Z) :
  APIConfig.validateStatus status = FetchService.ok status.
Proof.
  unfold APIConfig.validateStatus, FetchService.ok; f_equal.
  destruct (Z.ltb_spec status 300), (Z.leb_spec status 299);
    (reflexivity || lia).
Qed.

Ltac settle_alike :=
  let status := fresh "status" in
  intros [?|status ?] ?;
  cbn [settle call FetchService.getCountries FetchService.getTopCountries
       FetchService.searchCountries AxiosService.getCountries
       AxiosService.getTopCountries AxiosService.searchCountries];
  unfold APIConfig.dispatch; [split; discriminate|];
  rewrite validateStatus_ok;
  destruct (FetchService.ok status); cbn; [reflexivity | split; discriminate].

(** X7: how the two services compare on anything that may come back: a
    body of the declared shape, a body that is empty or not JSON, after any
    delay.  For the list of countries, the top rankings and a search,
    whenever the service over axios returns rows, the service over [fetch]
    returns the same rows on the same arrival; the converse holds exactly
    when the answer came before the 10000 ms timeout of the axios instance,
    which [fetch] does not have.  A vote succeeds over axios exactly when it
    came in time and succeeds over [fetch].  And on a success status with a
    body that is empty or not JSON, come in time, the two part: the service
    over [fetch] rejects with the [SyntaxError], the service over axios is
    fulfilled with [undefined]. *)
Theorem X7_services_on_any_arrival
    (countriesArrival : Arrival (ApiResponse (list Country)))
    (rankingsArrival : Arrival (ApiResponse (list CountryVote)))
    (voteArrival : Arrival PostBody)
    (listed : list Country) (rows : list CountryVote) (q : jsstring)
    (v : VoteSubmission) :
  (AxiosService.getCountriesOn countriesArrival = Settles (Fulfilled listed)
   <-> latency countriesArrival < APIConfig.timeout
       /\ FetchService.getCountriesOn countriesArrival
          = Settles (Fulfilled listed))
  /\ (AxiosService.getTopCountriesOn rankingsArrival = Settles (Fulfilled rows)
      <-> latency rankingsArrival < APIConfig.timeout
          /\ FetchService.getTopCountriesOn rankingsArrival
             = Settles (Fulfilled rows))
  /\ (AxiosService.searchCountriesOn q rankingsArrival
      = Settles (Fulfilled rows)
      <-> latency rankingsArrival < APIConfig.timeout
          /\ FetchService.searchCountriesOn q rankingsArrival
             = Settles (Fulfilled rows))
  /\ (AxiosService.submitVoteOn v voteArrival = Settles (Fulfilled tt)
      <-> latency voteArrival < APIConfig.timeout
          /\ FetchService.submitVoteOn v voteArrival = Settles (Fulfilled tt))
  /\ (forall (late : N) (status : Z) (syntaxError : jsstring),
         late < APIConfig.timeout -> (200 <= status <= 299)%Z ->
         let garbled : Arrival (ApiResponse (list CountryVote)) :=
           {| latency := late; content := Garbled status syntaxError |} in
         FetchService.getTopCountriesOn garbled
         = Settles (Rejected (ErrorObject syntaxError))
         /\ AxiosService.getTopCountriesOn garbled = FulfilsUndefined
         /\ FetchService.searchCountriesOn q garbled
            = Settles (Rejected (ErrorObject syntaxError))
         /\ AxiosService.searchCountriesOn q garbled = FulfilsUndefined).
Proof.
  split; [|split; [|split; [|split]]].
  - apply services_succeed_alike; settle_alike.
  - apply services_succeed_alike; settle_alike.
  - apply services_succeed_alike; settle_alike.
  - destruct voteArrival as [late body];
      unfold AxiosService.submitVoteOn, FetchService.submitVoteOn,
        APIConfig.timedOut; cbn [latency content].
    destruct (N.leb_spec APIConfig.timeout late) as [Hout|Hin];
      [split; [discriminate | intros [Hlt _]; lia]|].
    assert (Hvote : forall answer,
               settle (AxiosService.submitVote v) answer = Fulfilled tt
               <-> settle (FetchService.submitVote v) answer = Fulfilled tt).
    { intros answer.
      rewrite axios_submitVote_settle, fetch_submitVote_settle.
      destruct answer as [raw|status reply]; [split; discriminate|].
      rewrite validateStatus_ok.
      destruct (FetchService.ok status); [reflexivity|].
      destruct reply; split; discriminate. }
    destruct body as [answer|status syntaxError].
    + split.
      * intros [= H]; split; [exact Hin|]. f_equal; apply Hvote; exact H.
      * intros [_ [= H]]; f_equal; apply Hvote; exact H.
    + split.
      * intros [= H]; split; [exact Hin|]. f_equal; apply Hvote; exact H.
      * intros [_ [= H]]; f_equal; apply Hvote; exact H.
  - intros late status syntaxError Hlate Hs garbled; subst garbled.
    assert (Hok : FetchService.ok status = true)
      by (unfold FetchService.ok; apply andb_true_iff; split;
          apply Z.leb_le; lia).
    assert (Hin : APIConfig.timedOut
                    {| latency := late;
                       content := @Garbled (ApiResponse (list CountryVote))
                                    status syntaxError |} = false)
      by (unfold APIConfig.timedOut; apply N.leb_gt; exact Hlate).
    unfold FetchService.getTopCountriesOn, FetchService.searchCountriesOn,
      AxiosService.getTopCountriesOn, AxiosService.searchCountriesOn,
      FetchService.getOn, AxiosService.getOn.
    rewrite Hin; cbn [content]; rewrite validateStatus_ok, Hok; cbn.
    repeat split.
Qed.

Lemma X7_services_on_any_arrival_witness :
  let garbled : Arrival (ApiResponse (list CountryVote)) :=
    {| latency := 120;
       content := Garbled 200 (js "Unexpected end of JSON input") |} in
  FetchService.getTopCountriesOn garbled
  = Settles (Rejected (ErrorObject (js "Unexpected end of JSON input")))
  /\ AxiosService.getTopCountriesOn garbled = FulfilsUndefined
  /\ FetchService.searchCountriesOn (js "fra") garbled
     = Settles (Rejected (ErrorObject (js "Unexpected end of JSON input")))
  /\ AxiosService.searchCountriesOn (js "fra") garbled = FulfilsUndefined.
Proof.
  apply (proj2 (proj2 (proj2 (proj2
           (@X7_services_on_any_arrival
              {| latency := 0; content := Shaped (NoResponse blank) |}
              {| latency := 0; content := Shaped (NoResponse blank) |}
              {| latency := 0; content := Shaped (NoResponse blank) |}
              [] [] (js "fra") (Scenario.vote "Al" "a@b.co" "FRA")))))
           120 200%Z (js "Unexpected end of JSON input"));
    [reflexivity | lia].
Defined.

(** X8: over the axios instance a vote that fails is rejected with a text
    that is never empty, so the error banner of the form, rendered when
    [submitError] is truthy, shows for every failure. *)
Theorem X8_axios_failure_text_not_blank (v : VoteSubmission)
    (answer : NetResult PostBody) :
  settle (AxiosService.submitVote v) answer = Fulfilled tt
  \/ exists msg,
       settle (AxiosService.submitVote v) answer = Rejected (ErrorObject msg)
       /\ truthy msg = true.
Proof.
  rewrite axios_submitVote_settle.
  destruct answer as [raw|status body]; [right; eauto|].
  destruct (APIConfig.validateStatus status); [auto|right].
  eexists; split; [reflexivity|].
  unfold orElse.
  destruct body as [[m|]|e]; try reflexivity.
  destruct (truthy m) eqn:Hm; [exact Hm | reflexivity].
Qed.

(** ** The ranking table: what an answer commits *)

Section TableAnswer.

Import CountryTable.

Variable api : Api.Service.

(** The state after the answer to a pending request, spelled out. *)
Lemma settled_found (id : nat) (loader : Loader)
    (answer : NetResult (ApiResponse (list CountryVote))) (w : World) :
  lookup id (pending w) = Some loader ->
  settled api id answer w
  = mkWorld
      match outcomeOf api loader answer with
      | Fulfilled rows =>
          mkState rows (searchQuery (state w)) false (error (state w))
      | Rejected _ =>
          mkState (countries (state w)) (searchQuery (state w)) false
            (Invariant.failureText loader)
      end
      (refreshTrigger w) (clock w) (timers w) (nextHandle w) (debounce w)
      (remove id (pending w)) (issued w).
Proof.
  intros Hl; unfold settled; rewrite Hl.
  destruct loader, (outcomeOf api _ answer); reflexivity.
Qed.

Lemma failureText_truthy (loader : Loader) :
  truthy (Invariant.failureText loader) = true.
Proof. destruct loader; reflexivity. Qed.

End TableAnswer.

(** X9: when the request of a loader fails, for whatever reason, the table
    keeps the rows and the search text it had, stops showing "Loading..."
    and sets the error to the fixed text of that loader: "Failed to load
    countries" for the top rankings, "Failed to search countries" for a
    search; the reason of the failure is not shown. *)
Theorem X9_table_failure_keeps_rows (api : Api.Service)
    (w : CountryTable.World) (id : nat) (loader : CountryTable.Loader)
    (answer : NetResult (ApiResponse (list CountryVote))) (e : Thrown) :
  CountryTable.lookup id (CountryTable.pending w) = Some loader ->
  CountryTable.outcomeOf api loader answer = Rejected e ->
  let w' := CountryTable.step api w (CountryTable.Settle id answer) in
  CountryTable.state w'
  = CountryTable.mkState
      (CountryTable.countries (CountryTable.state w))
      (CountryTable.searchQuery (CountryTable.state w))
      false (Invariant.failureText loader)
  /\ CountryTable.issued w' = CountryTable.issued w.
Proof.
  intros Hl Ho w'; subst w'; cbn [CountryTable.step].
  rewrite (settled_found api id answer w Hl), Ho; split; reflexivity.
Qed.

Lemma X9_table_failure_keeps_rows_witness :
  let w := CountryTable.run FetchService.api
             (CountryTable.mount FetchService.api 0)
             [CountryTable.Settle 0 (Scenario.rankings [Scenario.brazil]);
              CountryTable.Change (js "fra"); CountryTable.Wait 300] in
  let w' := CountryTable.step FetchService.api w
              (CountryTable.Settle 1
                 (Response 500 {| data := []; message := None |})) in
  CountryTable.state w'
  = CountryTable.mkState
      (CountryTable.countries (CountryTable.state w))
      (CountryTable.searchQuery (CountryTable.state w))
      false (js "Failed to search countries")
  /\ CountryTable.issued w' = CountryTable.issued w.
Proof.
  exact (@X9_table_failure_keeps_rows FetchService.api
           (CountryTable.run FetchService.api
              (CountryTable.mount FetchService.api 0)
              [CountryTable.Settle 0 (Scenario.rankings [Scenario.brazil]);
               CountryTable.Change (js "fra"); CountryTable.Wait 300])
           1%nat (CountryTable.SearchCountries (js "fra"))
           (Response 500 {| data := []; message := None |})
           (ErrorObject (js "Failed to search countries"))
           eq_refl eq_refl).
Defined.

(** X10: the loading flag is not tied to a request: with two requests
    pending, the answer to one of them, a success or a failure, stops
    "Loading..." from showing although the other request is still pending. *)
Theorem X10_loading_cleared_while_pending (api : Api.Service)
    (w : CountryTable.World) (id other : nat)
    (loader waiting : CountryTable.Loader)
    (answer : NetResult (ApiResponse (list CountryVote))) :
  id <> other ->
  CountryTable.lookup id (CountryTable.pending w) = Some loader ->
  CountryTable.lookup other (CountryTable.pending w) = Some waiting ->
  let w' := CountryTable.step api w (CountryTable.Settle id answer) in
  TableView.loading (TableView.render (CountryTable.state w')) = false
  /\ CountryTable.lookup other (CountryTable.pending w') = Some waiting.
Proof.
  intros Hne Hl Ho w'; subst w'; cbn [CountryTable.step]; split.
  - rewrite (settled_found api id answer w Hl).
    destruct (CountryTable.outcomeOf api loader answer); reflexivity.
  - rewrite pending_settled by auto. exact Ho.
Qed.

Lemma X10_loading_cleared_while_pending_witness :
  let w := CountryTable.run FetchService.api
             (CountryTable.mount FetchService.api 0)
             [CountryTable.Change (js "fra"); CountryTable.Wait 300] in
  let w' := CountryTable.step FetchService.api w
              (CountryTable.Settle 0 (Scenario.rankings [Scenario.brazil])) in
  TableView.loading (TableView.render (CountryTable.state w')) = false
  /\ CountryTable.lookup 1 (CountryTable.pending w')
     = Some (CountryTable.SearchCountries (js "fra")).
Proof.
  exact (@X10_loading_cleared_while_pending FetchService.api
           (CountryTable.run FetchService.api
              (CountryTable.mount FetchService.api 0)
              [CountryTable.Change (js "fra"); CountryTable.Wait 300])
           0%nat 1%nat CountryTable.LoadTopCountries
           (CountryTable.SearchCountries (js "fra"))
           (Scenario.rankings [Scenario.brazil])
           ltac:(lia) eq_refl eq_refl).
Defined.

(** X11: a success does not clear the error.  With two requests pending,
    when one fails and the other then succeeds, the rows of the success are
    stored but the error of the failure stays: the banner shows it and the
    table is not rendered. *)
Theorem X11_failure_outlives_later_success (api : Api.Service)
    (w : CountryTable.World) (failing succeeding : nat)
    (loader1 loader2 : CountryTable.Loader)
    (answer1 answer2 : NetResult (ApiResponse (list CountryVote)))
    (e : Thrown) (rows : list CountryVote) :
  failing <> succeeding ->
  CountryTable.lookup failing (CountryTable.pending w) = Some loader1 ->
  CountryTable.lookup succeeding (CountryTable.pending w) = Some loader2 ->
  CountryTable.outcomeOf api loader1 answer1 = Rejected e ->
  CountryTable.outcomeOf api loader2 answer2 = Fulfilled rows ->
  let w' := CountryTable.run api w
              [CountryTable.Settle failing answer1;
               CountryTable.Settle succeeding answer2] in
  CountryTable.countries (CountryTable.state w') = rows
  /\ TableView.errorBanner (TableView.render (CountryTable.state w'))
     = Some (Invariant.failureText loader1)
  /\ TableView.table (TableView.render (CountryTable.state w')) = None.
Proof.
  intros Hne H1 H2 Ho1 Ho2 w'; subst w'.
  cbn [CountryTable.run fold_left CountryTable.step].
  assert (H2' : CountryTable.lookup succeeding
                  (CountryTable.pending
                     (CountryTable.settled api failing answer1 w))
                = Some loader2)
    by (rewrite pending_settled by auto; exact H2).
  rewrite (settled_found api succeeding answer2 _ H2'), Ho2.
  rewrite (settled_found api failing answer1 w H1), Ho1.
  unfold TableView.render;
    cbn [CountryTable.state CountryTable.countries CountryTable.error
         CountryTable.isLoading TableView.errorBanner TableView.table].
  rewrite failureText_truthy; repeat split.
Qed.

Lemma X11_failure_outlives_later_success_witness :
  let w := CountryTable.run FetchService.api
             (CountryTable.mount FetchService.api 0)
             [CountryTable.Change (js "fra"); CountryTable.Wait 300] in
  let w' := CountryTable.run FetchService.api w
              [CountryTable.Settle 0 (NoResponse (js "Failed to fetch"));
               CountryTable.Settle 1 (Scenario.rankings [Scenario.france])] in
  CountryTable.countries (CountryTable.state w') = [Scenario.france]
  /\ TableView.errorBanner (TableView.render (CountryTable.state w'))
     = Some (js "Failed to load countries")
  /\ TableView.table (TableView.render (CountryTable.state w')) = None.
Proof.
  exact (@X11_failure_outlives_later_success FetchService.api
           (CountryTable.run FetchService.api
              (CountryTable.mount FetchService.api 0)
              [CountryTable.Change (js "fra"); CountryTable.Wait 300])
           0%nat 1%nat CountryTable.LoadTopCountries
           (CountryTable.SearchCountries (js "fra"))
           (NoResponse (js "Failed to fetch"))
           (Scenario.rankings [Scenario.france])
           (ErrorObject (js "Failed to fetch")) [Scenario.france]
           ltac:(lia) eq_refl eq_refl eq_refl eq_refl).
Defined.

(** ** The ranking table: invariants *)

Section TableInvariants.

Import CountryTable.

Variable api : Api.Service.

(** What the callback of a timer does to the log. *)
Lemma callback_log (q : jsstring) (w : World) :
  Invariant.logStep api w (debounceCallback api q w).
Proof.
  unfold debounceCallback, searchCountries.
  destruct (truthy (trim q)) eqn:Hq.
  - destruct (before (Api.searchCountries q)); [left; auto|].
    right; right; exists (SearchCountries q), (clock w); repeat split.
    exact Hq.
  - right; right; exists LoadTopCountries, (clock w); repeat split.
Qed.

(** A property of the pending promises and the log that every action
    keeps is kept by the timers that run, one action each, and so by every
    event. *)
Lemma fire_log (P : World -> Prop) (now : N) (table : list Timer) :
  (forall w w', Invariant.logStep api w w' -> P w -> P w') ->
  forall w, P w -> P (fire api now table w).
Proof.
  intros Hkeep; induction table as [|t later IH]; intros w Hw; cbn [fire];
    [exact Hw|].
  destruct (due t <=? now); [|exact (IH _ Hw)].
  apply IH. eapply Hkeep; [apply callback_log|].
  eapply Hkeep; [|exact Hw]. left; auto.
Qed.

Lemma step_log (P : World -> Prop) :
  (forall w w', Invariant.logStep api w w' -> P w -> P w') ->
  forall w e, P w -> P (step api w e).
Proof.
  intros Hkeep w e Hw; destruct e as [v|n|id answer|dt]; cbn [step].
  - eapply Hkeep; [|exact Hw]. left.
    unfold change. destruct (eqb v (searchQuery (state w))); [auto|].
    unfold searchEffectCleanup;
      cbn [debounce setSearchQuery withState].
    destruct (debounce w); auto.
  - eapply Hkeep; [|exact Hw].
    unfold render. destruct (n =? refreshTrigger w)%Z; [left; auto|].
    right; right; exists LoadTopCountries, (clock w); repeat split.
  - eapply Hkeep; [|exact Hw].
    destruct (lookup id (pending w)) as [loader|] eqn:Hl.
    + right; left; exists id.
      rewrite (settled_found api id answer w Hl); auto.
    + left; unfold settled; rewrite Hl; auto.
  - unfold wait.
    eapply Hkeep;
      [|exact (@fire_log P (clock w + dt) (timers w) Hkeep w Hw)].
    left; auto.
Qed.

(** Settling a promise leaves the numbers of the others distinct. *)
Lemma remove_keeps_distinct (id : nat) (promises : list (nat * Loader)) :
  NoDup (map fst promises) -> NoDup (map fst (remove id promises)).
Proof.
  unfold remove; induction promises as [|[k loader] promises IH];
    cbn [map filter fst]; intros Hnd; [constructor|].
  apply NoDup_cons_iff in Hnd as [Hk Hrest].
  destruct (negb (Nat.eqb k id)); cbn [map fst]; [|exact (IH Hrest)].
  apply NoDup_cons_iff; split; [|exact (IH Hrest)].
  intros Hin; apply Hk.
  apply in_map_iff in Hin as (entry & Hfst & Hin).
  apply filter_In in Hin as [Hin _].
  apply in_map_iff; exists entry; auto.
Qed.

Lemma logStep_pendingIssued (w w' : World) :
  Invariant.logStep api w w' ->
  Invariant.pendingIssued api w -> Invariant.pendingIssued api w'.
Proof.
  unfold Invariant.pendingIssued; intros Hlog [Hnd Hin].
  destruct Hlog as [[Hp Hi]|[(id & Hp & Hi)|(l & t & _ & Hp & Hi)]];
    rewrite Hp, Hi.
  - split; assumption.
  - split; [apply remove_keeps_distinct, Hnd|].
    intros k loader Hk; apply Hin.
    unfold remove in Hk; apply filter_In in Hk; tauto.
  - split.
    + rewrite map_app; apply NoDup_app; [exact Hnd | repeat constructor; auto|].
      intros k Hk [<-|[]].
      apply in_map_iff in Hk as ([k' loader] & Hfst & Hk); cbn in Hfst; subst.
      destruct (Hin _ _ Hk) as [t' Ht'].
      assert (nth_error (issued w) (List.length (issued w)) <> None)
        by congruence.
      apply nth_error_Some in H; lia.
    + intros k loader Hk; apply in_app_or in Hk as [Hk|[Hk|[]]].
      * destruct (Hin _ _ Hk) as [t' Ht']; exists t'.
        rewrite nth_error_app1; [exact Ht'|].
        apply nth_error_Some; congruence.
      * injection Hk as <- <-; exists t.
        rewrite nth_error_app2, Nat.sub_diag by lia; reflexivity.
Qed.

Lemma step_pendingIssued (w : World) (e : Event) :
  Invariant.pendingIssued api w -> Invariant.pendingIssued api (step api w e).
Proof. apply step_log; exact logStep_pendingIssued. Qed.

Lemma step_onlyRankingRequests (w : World) (e : Event) :
  Invariant.onlyRankingRequests api w ->
  Invariant.onlyRankingRequests api (step api w e).
Proof.
  apply step_log; clear w e; intros w w' Hlog.
  unfold Invariant.onlyRankingRequests; intros Hw.
  destruct Hlog as [[_ Hi]|[(id & _ & Hi)|(l & t & Hs & _ & Hi)]];
    rewrite Hi; try exact Hw.
  apply Forall_app; split; [exact Hw|].
  constructor; [|constructor]. exists l; split; [exact Hs | reflexivity].
Qed.

(** The callback of a timer leaves a request outstanding or has stopped
    "Loading..." itself. *)
Lemma callback_loadingHasPending (q : jsstring) (w : World) :
  Invariant.loadingHasPending (debounceCallback api q w).
Proof.
  unfold Invariant.loadingHasPending, debounceCallback, searchCountries.
  destruct (truthy (trim q)); [destruct (before (Api.searchCountries q))|];
    cbn; try discriminate; intros _; destruct (pending w); discriminate.
Qed.

Lemma fire_loadingHasPending (now : N) (table : list Timer) :
  forall w, Invariant.loadingHasPending w ->
            Invariant.loadingHasPending (fire api now table w).
Proof.
  induction table as [|t later IH]; intros w Hw; cbn [fire]; [exact Hw|].
  destruct (due t <=? now); [|exact (IH _ Hw)].
  apply IH, callback_loadingHasPending.
Qed.

Lemma step_loadingHasPending (w : World) (e : Event) :
  Invariant.loadingHasPending w -> Invariant.loadingHasPending (step api w e).
Proof.
  unfold Invariant.loadingHasPending; intros Hw.
  destruct e as [v|n|id answer|dt]; cbn [step].
  - unfold change. destruct (eqb v (searchQuery (state w))); [exact Hw|].
    unfold searchEffectCleanup; cbn [debounce setSearchQuery withState].
    destruct (debounce w); exact Hw.
  - unfold render. destruct (n =? refreshTrigger w)%Z; [exact Hw|].
    intros _; cbn. destruct (pending w); discriminate.
  - destruct (lookup id (pending w)) as [loader|] eqn:Hl.
    + rewrite (settled_found api id answer w Hl).
      destruct (outcomeOf api loader answer); cbn; discriminate.
    + unfold settled; rewrite Hl; exact Hw.
  - unfold wait. exact (fire_loadingHasPending _ _ Hw).
Qed.

End TableInvariants.

(** X12: in every state the mounted table can reach at most one debounce
    timer is pending, since the cleanup of the search effect clears the timer
    of the run before whenever the effect runs again; that timer closes over
    the text the search box shows at that moment and is due within the next
    300 ms.  So a burst of keystrokes leaves no timer behind for a text that
    was typed over, and the search a timer starts is always for the text on
    screen. *)
Theorem X12_one_timer_for_current_text (api : Api.Service) (n : Z)
    (events : list CountryTable.Event) :
  let w := CountryTable.run api (CountryTable.mount api n) events in
  (List.length (CountryTable.timers w) <= 1)%nat
  /\ forall t, In t (CountryTable.timers w) ->
       CountryTable.captured t
       = CountryTable.searchQuery (CountryTable.state w)
       /\ CountryTable.clock w < CountryTable.due t
          <= CountryTable.clock w + 300.
Proof.
  intros w.
  assert (Hinv : Invariant.timerFresh w).
  { apply run_invariant; [apply step_timerFresh | apply mount_timerFresh]. }
  destruct Hinv as [Hlen Hall]; split; [exact Hlen|].
  intros t Ht; exact (proj2 (Hall t Ht)).
Qed.

Lemma X12_one_timer_for_current_text_witness :
  let w := CountryTable.run FetchService.api
             (CountryTable.mount FetchService.api 0)
             [CountryTable.Wait 100; CountryTable.Change (js "fr");
              CountryTable.Wait 100; CountryTable.Change (js "fra");
              CountryTable.Wait 100] in
  js "fra" = CountryTable.searchQuery (CountryTable.state w)
  /\ CountryTable.clock w < 500 <= CountryTable.clock w + 300.
Proof.
  apply (proj2 (@X12_one_timer_for_current_text FetchService.api 0%Z
                  [CountryTable.Wait 100; CountryTable.Change (js "fr");
                   CountryTable.Wait 100; CountryTable.Change (js "fra");
                   CountryTable.Wait 100])
           (CountryTable.Build_Timer 2 500 (js "fra"))).
  vm_compute; left; reflexivity.
Defined.

(** X14: the mounted table only ever sends the top-rankings request or a
    search for a text that does not trim to the empty string: a blank search
    text never reaches the search endpoint. *)
Theorem X14_no_search_for_blank_text (api : Api.Service) (n : Z)
    (events : list CountryTable.Event) :
  Invariant.onlyRankingRequests api
    (CountryTable.run api (CountryTable.mount api n) events).
Proof.
  apply run_invariant; [apply step_onlyRankingRequests|].
  constructor; [|constructor].
  exists CountryTable.LoadTopCountries; split; [exact I | reflexivity].
Qed.

(** X15: in every state the mounted table can reach, while "Loading..."
    shows a request is still outstanding; the table is never left loading
    with nothing to wait for. *)
Theorem X15_loading_waits_for_a_request (api : Api.Service) (n : Z)
    (events : list CountryTable.Event) :
  let w := CountryTable.run api (CountryTable.mount api n) events in
  TableView.loading (TableView.render (CountryTable.state w)) = true ->
  CountryTable.pending w <> [].
Proof.
  intros w.
  change (Invariant.loadingHasPending w).
  apply run_invariant; [apply step_loadingHasPending|].
  intros _; discriminate.
Qed.

Lemma X15_loading_waits_for_a_request_witness :
  CountryTable.pending
    (CountryTable.run FetchService.api (CountryTable.mount FetchService.api 0)
       [CountryTable.Settle 0 (Scenario.rankings [Scenario.brazil]);
        CountryTable.Wait 300])
  <> [].
Proof.
  exact (@X15_loading_waits_for_a_request FetchService.api 0%Z
           [CountryTable.Settle 0 (Scenario.rankings [Scenario.brazil]);
            CountryTable.Wait 300] eq_refl).
Defined.

(** ** The voting form and the application: invariants *)

Section FormCounts.

Import VotingForm.

Variable api : Api.Service.


(** What an appended piece of trace adds to the two counts. *)
Lemma notifications_extend (s : State) (c : N) (t : list N)
    (f : list VoteSubmission) (tr added : list Effect) :
  notifications (mkWorld s c t f (tr ++ added))
  = (notifications (mkWorld s c t f tr)
     + notifications (mkWorld s c t f added))%nat.
Proof.
  unfold notifications; cbn [trace]; rewrite filter_app, length_app; reflexivity.
Qed.

Lemma sent_extend (s : State) (c : N) (t : list N)
    (f : list VoteSubmission) (tr added : list Effect) :
  sent (mkWorld s c t f (tr ++ added))
  = sent (mkWorld s c t f tr) ++ sent (mkWorld s c t f added).
Proof. unfold sent; cbn [trace]; apply flat_map_app. Qed.

(** Timers add nothing to the counts. *)
Lemma fireTimers_counts (now : N) (pending : list N) :
  forall w : World,
    notifications (fireTimers now pending w) = notifications w
    /\ sent (fireTimers now pending w) = sent w.
Proof.
  induction pending as [|due rest IH]; intros w; cbn [fireTimers]; [auto|].
  destruct (due <=? now); [|apply IH].
  destruct (IH (exec (setSubmitSuccess false) w)) as [Hn Hs].
  rewrite Hn, Hs; destruct w as [st c t f tr].
  cbv beta iota zeta delta
    [exec setSubmitSuccess perform record withState snd state clock timers
     inflight trace].
  rewrite notifications_extend, sent_extend; cbn.
  rewrite Nat.add_0_r, app_nil_r; auto.
Qed.

(** What one step adds: [sends] requests, [calls] notifications, and the
    votes in flight follow. *)
Lemma step_counts (w : World) (e : Event) :
  exists sends calls : nat,
    List.length (sent (step api w e)) = (List.length (sent w) + sends)%nat
    /\ notifications (step api w e) = (notifications w + calls)%nat
    /\ (List.length (inflight (step api w e)) + calls
        <= List.length (inflight w) + sends)%nat.
Proof.
  destruct e as [v|v|v|  |answer|dt]; [cbn [step] .. | | cbn [step]].
  1-3: exists 0%nat, 0%nat; destruct w as [st c t f tr];
    cbv beta iota zeta delta
      [exec setFormData perform record withState snd state clock timers
       inflight trace];
    rewrite notifications_extend, sent_extend, length_app; cbn; lia.
  - unfold submitDisabled.
    destruct (isSubmitting (state w)); [exists 0%nat, 0%nat; lia|].
    destruct (Scenario.passes (formData (state w))) eqn:Hp.
    + exists 1%nat, 0%nat. rewrite (handleSubmit_passes api w Hp).
      rewrite notifications_extend, sent_extend, !length_app.
      destruct w as [st c t f tr]; cbn. unfold notifications, sent; cbn.
      rewrite ?length_app; cbn; lia.
    + exists 0%nat, 0%nat. rewrite (handleSubmit_fails api w Hp).
      rewrite notifications_extend, sent_extend, !length_app.
      destruct w as [st c t f tr]; cbn. unfold notifications, sent; cbn.
      rewrite ?length_app; cbn; lia.
  - destruct (inflight w) as [|v rest] eqn:Hin.
    + exists 0%nat, 0%nat; cbn [step]; rewrite Hin, Hin; cbn; lia.
    + destruct (settle (Api.submitVote v) answer) as [u|err] eqn:Hout.
      * exists 0%nat, 1%nat.
        rewrite (settle_fulfilled api w answer Hin Hout).
        rewrite notifications_extend, sent_extend, !length_app.
        destruct w as [st c t f tr]; cbn in *. unfold notifications, sent; cbn.
        subst f; cbn; rewrite ?length_app; cbn; lia.
      * exists 0%nat, 0%nat.
        rewrite (settle_rejected api w answer Hin Hout).
        rewrite notifications_extend, sent_extend, !length_app.
        destruct w as [st c t f tr]; cbn in *. unfold notifications, sent; cbn.
        subst f; cbn; rewrite ?length_app; cbn; lia.
  - exists 0%nat, 0%nat; unfold wait.
    destruct (fireTimers_counts (clock w + dt) (timers w) w) as [Hn Hs].
    destruct (fireTimers_frame (clock w + dt) (timers w) w)
      as (_ & _ & Hi & _).
    unfold notifications, sent in *; cbn [trace inflight].
    rewrite Hn, Hs, Hi; lia.
Qed.

Lemma step_notifiedForSent (w : World) (e : Event) :
  Invariant.notifiedForSent w -> Invariant.notifiedForSent (step api w e).
Proof.
  unfold Invariant.notifiedForSent; intros Hw.
  destruct (step_counts w e) as (sends & calls & Hs & Hn & Hi).
  rewrite Hs, Hn; lia.
Qed.

Lemma step_successHasTimer (w : World) (e : Event) :
  Invariant.successHasTimer w -> Invariant.successHasTimer (step api w e).
Proof.
  unfold Invariant.successHasTimer; intros Hw.
  destruct e as [v|v|v|  |answer|dt]; [cbn [step] .. | | cbn [step]].
  1-3: destruct w as [[d e' i se ss] c t f tr]; exact Hw.
  - unfold submitDisabled.
    destruct (isSubmitting (state w)); [exact Hw|].
    destruct (Scenario.passes (formData (state w))) eqn:Hp.
    + rewrite (handleSubmit_passes api w Hp); cbn; discriminate.
    + rewrite (handleSubmit_fails api w Hp); cbn; discriminate.
  - destruct (inflight w) as [|v rest] eqn:Hin;
      [cbn [step]; rewrite Hin; exact Hw|].
    destruct (settle (Api.submitVote v) answer) as [u|err] eqn:Hout.
    + rewrite (settle_fulfilled api w answer Hin Hout); cbn; intros _.
      exists (clock w + 3000); split; [apply in_or_app; right; left; auto|lia].
    + rewrite (settle_rejected api w answer Hin Hout); exact Hw.
  - unfold wait; cbn [state clock timers].
    destruct (fireTimers_frame (clock w + dt) (timers w) w)
      as (_ & _ & _ & Hss).
    rewrite Hss.
    destruct (existsb (fun due => due <=? clock w + dt) (timers w)) eqn:Hex;
      [discriminate|].
    intros Ht; destruct (Hw Ht) as (due & Hdue & Hrange).
    assert (Hlate : (due <=? clock w + dt) = false).
    { destruct (due <=? clock w + dt) eqn:Hle; [|reflexivity].
      assert (existsb (fun due => due <=? clock w + dt) (timers w) = true)
        by (apply existsb_exists; exists due; auto).
      congruence. }
    exists due; split.
    + apply filter_In; split; [exact Hdue | rewrite Hlate; reflexivity].
    + apply N.leb_gt in Hlate; lia.
Qed.

Lemma run_form_invariant (P : World -> Prop) :
  (forall w e, P w -> P (step api w e)) ->
  forall events w, P w -> P (run api w events).
Proof.
  intros Hstep events; induction events as [|e events IH]; intros w Hw;
    [exact Hw | apply IH, Hstep, Hw].
Qed.

End FormCounts.

(** X16: in every state the form can reach, the notifications of the
    parent and the votes still in flight together number no more than the
    votes sent: the parent is notified at most once per vote sent, and never
    for a vote that is still in flight. *)
Theorem X16_notified_only_for_sent_votes (api : Api.Service)
    (events : list VotingForm.Event) :
  let w := VotingForm.run api VotingForm.initial events in
  (VotingForm.notifications w + List.length (VotingForm.inflight w)
   <= List.length (VotingForm.sent w))%nat.
Proof.
  intros w; change (Invariant.notifiedForSent w).
  apply run_form_invariant; [apply step_notifiedForSent|].
  unfold Invariant.notifiedForSent; cbn; lia.
Qed.

(** X17: in every state the form can reach, while the success banner shows
    a timer that clears it is pending and due within the next 3000 ms: the
    banner never stays for good. *)
Theorem X17_success_banner_has_timer (api : Api.Service)
    (events : list VotingForm.Event) :
  let w := VotingForm.run api VotingForm.initial events in
  VotingForm.submitSuccess (VotingForm.state w) = true ->
  exists due,
    In due (VotingForm.timers w)
    /\ VotingForm.clock w < due <= VotingForm.clock w + 3000.
Proof.
  intros w; change (Invariant.successHasTimer w).
  apply run_form_invariant; [apply step_successHasTimer|].
  intros H; discriminate.
Qed.

Lemma X17_success_banner_has_timer_witness :
  let w := VotingForm.run FetchService.api VotingForm.initial
             (Scenario.fill (Scenario.vote "Al" "a@b.co" "FRA")
              ++ [VotingForm.Submit; VotingForm.Settle Scenario.accepted;
                  VotingForm.Wait 1000]) in
  exists due,
    In due (VotingForm.timers w)
    /\ VotingForm.clock w < due <= VotingForm.clock w + 3000.
Proof.
  exact (@X17_success_banner_has_timer FetchService.api
           (Scenario.fill (Scenario.vote "Al" "a@b.co" "FRA")
            ++ [VotingForm.Submit; VotingForm.Settle Scenario.accepted;
                VotingForm.Wait 1000]) eq_refl).
Defined.

Section AppCounts.

Variable api : Api.Service.

Lemma iter_handleVoteSubmitted (k : nat) (w : App.World) :
  Nat.iter k App.handleVoteSubmitted w
  = App.mkWorld (App.refreshTrigger w + Z.of_nat k)%Z (App.form w)
      (App.table w).
Proof.
  induction k as [|k IH].
  - destruct w; cbn; f_equal; lia.
  - cbn [Nat.iter nat_rect]. change (nat_rect _ _ _ k) with
      (Nat.iter k App.handleVoteSubmitted w) in *.
    rewrite IH; unfold App.handleVoteSubmitted; cbn; f_equal; lia.
Qed.

Lemma formStep_signalCounts (e : VotingForm.Event) (w : App.World) :
  Invariant.signalCounts w -> Invariant.signalCounts (App.formStep api e w).
Proof.
  unfold Invariant.signalCounts, App.formStep, App.render; intros Hw.
  destruct (step_counts api (App.form w) e) as (sends & calls & _ & Hn & _).
  rewrite iter_handleVoteSubmitted; cbn [App.refreshTrigger App.form].
  rewrite Hn, Hw; lia.
Qed.

Lemma step_signalCounts (w : App.World) (e : App.Event) :
  Invariant.signalCounts w -> Invariant.signalCounts (App.step api w e).
Proof.
  intros Hw; destruct e; cbn [App.step];
    try (apply formStep_signalCounts; exact Hw);
    unfold Invariant.signalCounts, App.tableStep;
    cbn [App.refreshTrigger App.form]; exact Hw.
Qed.

End AppCounts.

(** X18: in every state the application can reach, the refresh signal
    equals the number of times the form called [onVoteSubmitted], which is
    the number of accepted votes, and the table was last rendered with that
    value. *)
Theorem X18_refresh_signal_counts_votes (api : Api.Service)
    (events : list App.Event) :
  let w := App.run api (App.mount api) events in
  App.refreshTrigger w = Z.of_nat (VotingForm.notifications (App.form w))
  /\ CountryTable.refreshTrigger (App.table w) = App.refreshTrigger w.
Proof.
  intros w; split; [|apply run_inSync; reflexivity].
  change (Invariant.signalCounts w); subst w.
  generalize (App.mount api),
    (eq_refl : Invariant.signalCounts (App.mount api)).
  induction events as [|e events IH]; intros w0 Hw; [exact Hw|].
  apply IH, step_signalCounts, Hw.
Qed.

(** ** The schema *)

Section SchemaFacts.

Import VoteSchema.

Variable emailRegex : jsstring -> bool.

Lemma parse_name (n : jsstring) :
  parseString emailRegex nameSchema n = (Invariant.nameIssues n, trim n).
Proof.
  unfold nameSchema, Invariant.nameIssues; cbn [parseString]; unfold issue.
  set (len := JsString.length n).
  destruct (N.ltb_spec len 1), (N.ltb_spec len 2), (N.ltb_spec 100 len),
    (N.eqb_spec len 0), (N.eqb_spec len 1), (N.leb_spec len 100);
    try lia; reflexivity.
Qed.

Lemma parse_email (e : jsstring) :
  parseString emailRegex emailSchema e
  = (issue (JsString.length e <? 1) (js "Email is required")
     ++ issue (negb (emailRegex e)) (js "Invalid email format"),
     trim (toLowerCase e)).
Proof. unfold emailSchema; cbn [parseString]; rewrite app_nil_r; reflexivity. Qed.

Lemma parse_country (c : jsstring) :
  parseString emailRegex countrySchema c
  = (issue (JsString.length c <? 1) (js "Please select a country"), c).
Proof. unfold countrySchema; cbn [parseString]; rewrite app_nil_r; reflexivity. Qed.

(** A string of white space trims to the empty string. *)
Lemma trim_white (s : jsstring) : forallb isWhiteSpace s = true -> trim s = [].
Proof.
  intros H; unfold trim, trimEnd.
  assert (Hstart : trimStart s = []).
  { induction s as [|c s IH]; [reflexivity|].
    cbn in H |- *; apply andb_true_iff in H as [Hc Hs].
    rewrite Hc; apply IH, Hs. }
  rewrite Hstart; reflexivity.
Qed.

End SchemaFacts.

(** X19: the schema judges a name by its length as typed, white space
    included: it reports "Name is required" and "Name must be at least 2
    characters" together for the empty name, the second alone for a name of
    one code unit, nothing for 2 to 100 code units and "Name must be less
    than 100 characters" beyond; whatever it reports, the parsed name is the
    trimmed one. *)
Theorem X19_schema_name_by_raw_length (emailRegex : jsstring -> bool)
    (n : jsstring) :
  VoteSchema.parseString emailRegex VoteSchema.nameSchema n
  = (if JsString.length n =? 0
     then [js "Name is required"; js "Name must be at least 2 characters"]
     else if JsString.length n =? 1
          then [js "Name must be at least 2 characters"]
          else if JsString.length n <=? 100 then []
               else [js "Name must be less than 100 characters"],
     trim n).
Proof. exact (parse_name emailRegex n). Qed.

(** X20: the schema lets a name through that holds only white space, as
    long as it has 2 to 100 code units, and parses it to the empty string;
    [validateForm] reports such a name as required. *)
Theorem X20_schema_accepts_blank_name (emailRegex : jsstring -> bool)
    (d : VoteSubmission) :
  2 <= JsString.length (name d) <= 100 ->
  forallb isWhiteSpace (name d) = true ->
  VoteSchema.parseString emailRegex VoteSchema.nameSchema (name d) = ([], [])
  /\ VotingForm.nameError d = Some (js "Name is required").
Proof.
  intros Hlen Hws; rewrite parse_name, nameError_spec, (trim_white _ Hws).
  split; [|reflexivity]. unfold Invariant.nameIssues.
  destruct (N.eqb_spec (JsString.length (name d)) 0),
    (N.eqb_spec (JsString.length (name d)) 1),
    (N.leb_spec (JsString.length (name d)) 100); try lia; reflexivity.
Qed.

Lemma X20_schema_accepts_blank_name_witness :
  VoteSchema.parseString (Regex.test VotingForm.emailPattern)
    VoteSchema.nameSchema (name (Scenario.vote "  " "a@b.co" "FRA"))
  = ([], [])
  /\ VotingForm.nameError (Scenario.vote "  " "a@b.co" "FRA")
     = Some (js "Name is required").
Proof.
  apply (@X20_schema_accepts_blank_name (Regex.test VotingForm.emailPattern)
           (Scenario.vote "  " "a@b.co" "FRA"));
    [vm_compute; split; discriminate | reflexivity].
Defined.

(** X21: the schema accepts a submission exactly when the name has 2 to
    100 code units, the e-mail is not empty and matches the e-mail pattern as
    typed, and the country is not empty; the value it then returns is the
    submission with the name trimmed, the e-mail put in lower case and then
    trimmed, and the country as it is. *)
Theorem X21_schema_success_is_normalized (emailRegex : jsstring -> bool)
    (d parsed : VoteSubmission) :
  VoteSchema.validateVoteSubmission emailRegex d = VoteSchema.Success parsed
  <-> (2 <= JsString.length (name d) <= 100
       /\ 1 <= JsString.length (email d)
       /\ emailRegex (email d) = true
       /\ 1 <= JsString.length (country d))
      /\ parsed = Scenario.normalized d.
Proof.
  unfold VoteSchema.validateVoteSubmission.
  rewrite parse_name, parse_email, parse_country.
  unfold Invariant.nameIssues, VoteSchema.issue, Scenario.normalized.
  destruct (N.eqb_spec (JsString.length (name d)) 0),
    (N.eqb_spec (JsString.length (name d)) 1),
    (N.leb_spec (JsString.length (name d)) 100),
    (N.ltb_spec (JsString.length (email d)) 1),
    (emailRegex (email d)),
    (N.ltb_spec (JsString.length (country d)) 1);
    cbn; split; intros Hyp;
    try discriminate; try lia;
    try (apply proj1 in Hyp; decompose [and] Hyp; (lia || discriminate)).
  - injection Hyp as <-; repeat split; lia.
  - destruct Hyp as [_ ->]; reflexivity.
Qed.

(** ** The dropdown of countries *)

(** X22: with a list whose codes are all different, the country the
    dropdown shows as selected is the listed country whose code the form
    holds, and its label is the name of that country, or "Country" when that
    name is empty. *)
Theorem X22_selected_country_found (countries : list Country)
    (formData : VoteSubmission) (c : Country) :
  NoDup (map code countries) ->
  In c countries ->
  country formData = code c ->
  CountryList.selectedCountry countries formData = Some c
  /\ CountryList.selectLabel countries formData
     = orElse (Some (countryName c)) (js "Country").
Proof.
  intros Hnd Hin Hcode.
  assert (Hsel : CountryList.selectedCountry countries formData = Some c).
  { unfold CountryList.selectedCountry; rewrite Hcode.
    induction countries as [|h l IH]; [destruct Hin|].
    cbn [find map] in *. inversion Hnd as [|? ? Hh Hl]; subst.
    destruct Hin as [->|Hin]; [rewrite eqb_refl; reflexivity|].
    destruct (eqb (code h) (code c)) eqn:He; [|apply IH; assumption].
    apply eqb_eq in He. exfalso; apply Hh; rewrite He.
    apply in_map, Hin. }
  split; [exact Hsel|].
  unfold CountryList.selectLabel; rewrite Hsel; reflexivity.
Qed.

Lemma X22_selected_country_found_witness :
  let fra := {| countryName := js "France"; code := js "FRA" |} in
  let bra := {| countryName := js "Brazil"; code := js "BRA" |} in
  CountryList.selectedCountry [bra; fra] (Scenario.vote "Al" "a@b.co" "FRA")
  = Some fra
  /\ CountryList.selectLabel [bra; fra] (Scenario.vote "Al" "a@b.co" "FRA")
     = orElse (Some (js "France")) (js "Country").
Proof.
  apply (@X22_selected_country_found
           [ {| countryName := js "Brazil"; code := js "BRA" |};
             {| countryName := js "France"; code := js "FRA" |} ]
           (Scenario.vote "Al" "a@b.co" "FRA")
           {| countryName := js "France"; code := js "FRA" |}).
  - repeat constructor; cbn; intuition discriminate.
  - right; left; reflexivity.
  - reflexivity.
Defined.

(** X23: once a vote is accepted the form is cleared, and the dropdown
    goes back to its placeholder "Country", provided no listed country has
    the empty string for a code. *)
Theorem X23_dropdown_resets_after_vote (api : Api.Service)
    (w : VotingForm.World) (v : VoteSubmission)
    (rest : list VoteSubmission) (answer : NetResult PostBody)
    (countries : list Country) :
  VotingForm.inflight w = v :: rest ->
  settle (Api.submitVote v) answer = Fulfilled tt ->
  forallb (fun c => truthy (code c)) countries = true ->
  let w' := VotingForm.step api w (VotingForm.Settle answer) in
  CountryList.selectedCountry countries
    (VotingForm.formData (VotingForm.state w')) = None
  /\ CountryList.selectLabel countries
       (VotingForm.formData (VotingForm.state w')) = js "Country".
Proof.
  intros Hin Hok Hcodes w'; subst w'.
  rewrite (settle_fulfilled api w answer Hin Hok).
  cbn [VotingForm.state VotingForm.formData].
  assert (Hsel : CountryList.selectedCountry countries VotingForm.emptyForm
                 = None).
  { unfold CountryList.selectedCountry; cbn [country VotingForm.emptyForm].
    induction countries as [|h l IH]; [reflexivity|].
    cbn in Hcodes |- *; apply andb_true_iff in Hcodes as [Hh Hl].
    destruct (code h); [discriminate|]. cbn. apply IH, Hl. }
  split; [exact Hsel|].
  unfold CountryList.selectLabel; rewrite Hsel; reflexivity.
Qed.

Lemma X23_dropdown_resets_after_vote_witness :
  let countries := [ {| countryName := js "France"; code := js "FRA" |} ] in
  let w := VotingForm.run FetchService.api VotingForm.initial
             (Scenario.fill (Scenario.vote "Al" "a@b.co" "FRA")
              ++ [VotingForm.Submit]) in
  let w' := VotingForm.step FetchService.api w
              (VotingForm.Settle Scenario.accepted) in
  CountryList.selectedCountry countries
    (VotingForm.formData (VotingForm.state w')) = None
  /\ CountryList.selectLabel countries
       (VotingForm.formData (VotingForm.state w')) = js "Country".
Proof.
  exact (@X23_dropdown_resets_after_vote FetchService.api
           (VotingForm.run FetchService.api VotingForm.initial
              (Scenario.fill (Scenario.vote "Al" "a@b.co" "FRA")
               ++ [VotingForm.Submit]))
           (Scenario.vote "Al" "a@b.co" "FRA") [] Scenario.accepted
           [ {| countryName := js "France"; code := js "FRA" |} ]
           eq_refl eq_refl eq_refl).
Defined.

(** X24: [loadCountries] swallows a failure: on a response with a status
    of 200 to 299 the dropdown takes the [data] of the body, and on any
    other answer it keeps the list it had, over either service. *)
Theorem X24_loadCountries_keeps_list_on_failure
    (answer : NetResult (ApiResponse (list Country)))
    (countries : list Country) :
  let loaded :=
    match answer with
    | Response status body =>
        if FetchService.ok status then data body else countries
    | NoResponse _ => countries
    end in
  CountryList.loadCountriesSettled FetchService.api answer countries = loaded
  /\ CountryList.loadCountriesSettled AxiosService.api answer countries
     = loaded.
Proof.
  assert (Hsame : forall status,
             APIConfig.validateStatus status = FetchService.ok status).
  { intros status; unfold APIConfig.validateStatus, FetchService.ok.
    f_equal. destruct (Z.ltb_spec status 300), (Z.leb_spec status 299);
      (reflexivity || lia). }
  unfold CountryList.loadCountriesSettled.
  destruct answer as [raw|status body]; cbn; [auto|].
  unfold APIConfig.dispatch; rewrite Hsame.
  destruct (FetchService.ok status); cbn; auto.
Qed.

(** ** A refresh during a search *)

Section RefreshFacts.

Import CountryTable.

Lemma lookup_In (id : nat) (loader : Loader) (l : list (nat * Loader)) :
  lookup id l = Some loader -> In (id, loader) l.
Proof.
  induction l as [|[k x] l IH]; cbn; [discriminate|].
  destruct (Nat.eqb_spec k id) as [->|Hk].
  - intros [= ->]; left; reflexivity.
  - intros H; right; apply IH, H.
Qed.

Lemma lookup_app (id : nat) (l m : list (nat * Loader)) :
  lookup id (l ++ m)
  = match lookup id l with
    | Some loader => Some loader
    | None => lookup id m
    end.
Proof.
  induction l as [|[k x] l IH]; cbn; [reflexivity|].
  destruct (Nat.eqb k id); [reflexivity | exact IH].
Qed.

End RefreshFacts.

(** X25: a refresh overrides an active search.  In every state the mounted
    table can reach, a render with a new [refreshTrigger] sends the
    top-rankings request whatever the search box holds and leaves the box
    and the debounce timer alone (the handle the cleanup holds and the timer
    table itself); when that request succeeds its rows replace the rows on
    screen while the box still shows the search text. *)
Theorem X25_refresh_overrides_search (api : Api.Service) (n0 n : Z)
    (events : list CountryTable.Event)
    (answer : NetResult (ApiResponse (list CountryVote)))
    (rows : list CountryVote) :
  let w := CountryTable.run api (CountryTable.mount api n0) events in
  n <> CountryTable.refreshTrigger w ->
  settle Api.getTopCountries answer = Fulfilled rows ->
  let refreshed := CountryTable.step api w (CountryTable.Render n) in
  let id := List.length (CountryTable.issued w) in
  let answered := CountryTable.step api refreshed (CountryTable.Settle id answer) in
  CountryTable.issued refreshed
  = CountryTable.issued w
    ++ [(CountryTable.clock w, request Api.getTopCountries)]
  /\ CountryTable.countries (CountryTable.state answered) = rows
  /\ CountryTable.searchQuery (CountryTable.state answered)
     = CountryTable.searchQuery (CountryTable.state w)
  /\ CountryTable.debounce answered = CountryTable.debounce w
  /\ CountryTable.timers answered = CountryTable.timers w.
Proof.
  intros w Hn Hok refreshed id answered.
  assert (Hinv : Invariant.pendingIssued api w).
  { apply run_invariant; [apply step_pendingIssued|].
    split; cbn.
    - repeat constructor; auto.
    - intros k l [[= <- <-]|[]]; eexists; reflexivity. }
  assert (Hfresh : CountryTable.lookup id (CountryTable.pending w) = None).
  { destruct (CountryTable.lookup id (CountryTable.pending w)) as [l|] eqn:Hl;
      [|reflexivity].
    apply lookup_In in Hl. destruct Hinv as [_ Hall].
    destruct (Hall _ _ Hl) as [t Ht].
    assert (nth_error (CountryTable.issued w) id <> None) by congruence.
    apply nth_error_Some in H; subst id; lia. }
  assert (Hr : refreshed
               = CountryTable.loadTopCountries api
                   (CountryTable.mkWorld (CountryTable.state w) n
                      (CountryTable.clock w) (CountryTable.timers w)
                      (CountryTable.nextHandle w) (CountryTable.debounce w)
                      (CountryTable.pending w) (CountryTable.issued w))).
  { subst refreshed; cbn [CountryTable.step]; unfold CountryTable.render.
    destruct (Z.eqb_spec n (CountryTable.refreshTrigger w)); [contradiction|].
    reflexivity. }
  assert (Hl : CountryTable.lookup id (CountryTable.pending refreshed)
               = Some CountryTable.LoadTopCountries).
  { rewrite Hr; cbn [CountryTable.pending CountryTable.loadTopCountries
                     CountryTable.send CountryTable.setError
                     CountryTable.setIsLoading CountryTable.withState
                     CountryTable.issued].
    rewrite lookup_app, Hfresh; cbn. subst id; rewrite Nat.eqb_refl.
    reflexivity. }
  subst answered; cbn [CountryTable.step].
  rewrite (settled_found api id answer refreshed Hl).
  cbn [CountryTable.outcomeOf]; rewrite Hok, Hr.
  repeat split.
Qed.

Lemma X25_refresh_overrides_search_witness :
  let w := CountryTable.run FetchService.api
             (CountryTable.mount FetchService.api 0)
             [CountryTable.Settle 0 (Scenario.rankings [Scenario.brazil]);
              CountryTable.Change (js "fra"); CountryTable.Wait 300;
              CountryTable.Settle 1 (Scenario.rankings [Scenario.france])] in
  let refreshed := CountryTable.step FetchService.api w (CountryTable.Render 1) in
  let answered :=
    CountryTable.step FetchService.api refreshed
      (CountryTable.Settle (List.length (CountryTable.issued w))
         (Scenario.rankings [Scenario.brazil; Scenario.france])) in
  CountryTable.issued refreshed
  = CountryTable.issued w
    ++ [(CountryTable.clock w, request FetchService.getTopCountries)]
  /\ CountryTable.countries (CountryTable.state answered)
     = [Scenario.brazil; Scenario.france]
  /\ CountryTable.searchQuery (CountryTable.state answered)
     = CountryTable.searchQuery (CountryTable.state w)
  /\ CountryTable.debounce answered = CountryTable.debounce w
  /\ CountryTable.timers answered = CountryTable.timers w.
Proof.
  exact (@X25_refresh_overrides_search FetchService.api 0%Z 1%Z
           [CountryTable.Settle 0 (Scenario.rankings [Scenario.brazil]);
            CountryTable.Change (js "fra"); CountryTable.Wait 300;
            CountryTable.Settle 1 (Scenario.rankings [Scenario.france])]
           (Scenario.rankings [Scenario.brazil; Scenario.france])
           [Scenario.brazil; Scenario.france]
           ltac:(vm_compute; discriminate) eq_refl).
Defined.
